(** * b-tour-v2: the lead-submission relay service (src/index.js)

    A shallow embedding of the [POST /formnew/submit] handler of
    [src/index.js] and of the background task it starts,
    [backgroundRocketourSubmission], together with the properties the
    specification states about them.

    The handler is effectful JavaScript: it queues log writes with
    [fs.appendFile], awaits [fetch], answers the client and then drives a
    headless browser.  The embedding is a small monad that
      - reads the host (clock, network, browser, disk, event loop) as an
        oracle over the history so far,
      - writes every observable action to a chronological trace, and
      - threads the queue of log writes that were started but have not
        finished yet.

    Conversions to text can throw ([String(x)] on an object whose own
    [toString] is not a function), and they do so in the embedding: as an
    exception that leaves the handler on line 59, and as one that the
    background task catches on lines 115-130.

    The file has two parts.  The first holds the definitions: JavaScript
    values, the monad, the code of [src/index.js], and the vocabulary the
    properties are stated in.  The second holds the proofs: equations and
    inversion of runs, then one section for each group of properties. *)

From Stdlib Require Import String Ascii ZArith List Bool Lia DecimalString.
Import ListNotations.
Open Scope string_scope.

(* ================================================================== *)
(** * JavaScript values *)
(* ================================================================== *)

(** The request body is what [express.json()] / [bodyParser.urlencoded]
    produce: JSON data.  Numbers are the integers ([VNum]); objects keep
    their keys in insertion order.  [VUndef] is what reading a missing
    property gives. *)
#[warnings="-register-all"]
Inductive value : Type :=
| VUndef
| VNull
| VBool (b : bool)
| VNum (n : Z)
| VStr (s : string)
| VArr (items : list value)
| VObj (fields : list (string * value)).

Definition obj : Type := list (string * value).

(** JavaScript truthiness, as used by [if (x)], [x || y], [x ? a : b] and
    [Array.prototype.filter(Boolean)]. *)
Definition truthy (v : value) : bool :=
  match v with
  | VUndef | VNull => false
  | VBool b => b
  | VNum n => negb (n =? 0)%Z
  | VStr s => negb (s =? "")
  | VArr _ | VObj _ => true
  end.

(** [a || b] *)
Definition js_or (a b : value) : value := if truthy a then a else b.

Fixpoint lookup (k : string) (o : obj) : value :=
  match o with
  | [] => VUndef
  | (k', v) :: rest => if k =? k' then v else lookup k rest
  end.

(** [v.k] for a data value: only objects carry the keys read here. *)
Definition prop (k : string) (v : value) : value :=
  match v with
  | VObj o => lookup k o
  | _ => VUndef
  end.

(** Assignment of a key: an existing key keeps its position. *)
Fixpoint obj_set (k : string) (v : value) (o : obj) : obj :=
  match o with
  | [] => [(k, v)]
  | (k', v') :: rest =>
      if k =? k' then (k, v) :: rest else (k', v') :: obj_set k v rest
  end.

(** [{ ...base, ...o }] *)
Definition spread (base o : obj) : obj :=
  fold_left (fun acc kv => obj_set (fst kv) (snd kv) acc) o base.

Definition string_of_Z (n : Z) : string := NilZero.string_of_int (Z.to_int n).

(** [Object.prototype.hasOwnProperty]: the key is one of the object's
    own, as opposed to one inherited from [Object.prototype]. *)
Definition has_own (k : string) (o : obj) : bool :=
  existsb (fun kv => fst kv =? k) o.

Definition dq : string := String (ascii_of_nat 34) EmptyString.
Definition newline : string := String (ascii_of_nat 10) EmptyString.

(* ================================================================== *)
(** * Errors *)
(* ================================================================== *)

(** What the awaited library calls reject with: an [Error] instance. *)
Record JsError : Type := mkError { err_name : string; err_message : string }.

Inductive Result (A : Type) : Type :=
| Ok (a : A)
| Throw (e : JsError).
Arguments Ok {A} a.
Arguments Throw {A} e.

(** [(err && err.message) || String(err)]; [Error.prototype.toString]
    gives the name when the message is empty. *)
Definition errText (e : JsError) : string :=
  if negb (err_message e =? "") then err_message e
  else if err_name e =? "" then err_message e
  else err_name e.

(* ================================================================== *)
(** * Observable actions *)
(* ================================================================== *)

(** The four log files of lines 24-28. *)
Inductive LogFile : Type :=
| GENERAL_LOG
| WHATSAPP_LOG
| SHEET_FAIL_LOG
| ROCKETOUR_LOG.

Definition logfile_eqb (a b : LogFile) : bool :=
  match a, b with
  | GENERAL_LOG, GENERAL_LOG
  | WHATSAPP_LOG, WHATSAPP_LOG
  | SHEET_FAIL_LOG, SHEET_FAIL_LOG
  | ROCKETOUR_LOG, ROCKETOUR_LOG => true
  | _, _ => false
  end.

(** The calls the code awaits. *)
Inductive Op : Type :=
| OFetch (url : string) (body : value)      (* fetch(url, {method: POST, body: JSON.stringify(body)}) *)
| OResponseText                             (* sheetResp.text() *)
| OExecutablePath                           (* chromium.executablePath() *)
| OLaunch                                   (* puppeteer.launch(...) *)
| ONewPage                                  (* browser.newPage() *)
| OGoto (url : string) (timeout : Z)        (* page.goto(url, {timeout}) *)
| OQuery (selector : string)                (* page.$(selector) *)
| OType (selector text : string)            (* page.type(selector, text) *)
| OClick                                    (* submitHandle.click() *)
| OWaitForSelector (selector : string) (timeout : Z)
| OClose.                                   (* browser.close() *)

Inductive Event : Type :=
| EAppendFile (f : LogFile) (entry : value) (* fs.appendFile(f, JSON.stringify(entry) + newline, cb) is called *)
| EWritten (f : LogFile) (entry : value)    (* that write has finished; cb(null) *)
| EWriteFailed (f : LogFile) (entry : value)(* that write has failed; cb(err) *)
| EConsoleError (msg : string)              (* console.error *)
| EConsole (msg : string)                   (* logConsole: the message text *)
| ECall (op : Op)                           (* an awaited call is made *)
| ESettled (op : Op) (r : Result value)     (* its promise resolves or rejects *)
| ERespond (status : Z) (body : value).     (* res.status(status).json(body) *)

Definition Queue : Type := list (LogFile * value).

(* ================================================================== *)
(** * The host *)
(* ================================================================== *)

(** Everything the code does not decide: the environment variables, the
    clock, how each awaited call settles, how many queued log writes the
    event loop finishes while the task is suspended, and whether the disk
    accepts them.  Each answer may depend on all that happened before.
    Every awaited call settles, with a value or with an exception: the
    runs covered are those in which no promise stays pending forever.

    The host also carries the two tables of the JavaScript engine that
    are not computed here: how a number beyond the safe integers prints
    ([Number::toString], exponent notation from 1e21 on), and the lower
    case of a text that has characters outside ASCII (the Unicode case
    mapping).  Every property below holds whatever these tables are. *)
Record Host : Type := mkHost {
  process_env : obj;
  clock : list Event -> string;
  settle : list Event -> Op -> Result value;
  turn : list Event -> nat;
  disk_ok : list Event -> LogFile -> bool;
  number_text : Z -> string;
  unicode_lower : string -> string
}.

(* ================================================================== *)
(** * Conversions to text *)
(* ================================================================== *)

(** The results of a computation that can throw, in sequence. *)
Definition and_then {A B} (r : Result A) (k : A -> Result B) : Result B :=
  match r with
  | Ok a => k a
  | Throw e => Throw e
  end.

Notation "'let*' x ':=' r 'in' k" := (and_then r (fun x => k))
  (at level 10, x name, r at level 100, k at level 200).

(** [Number::toString].  An integer below 2^53 prints with all its
    digits; beyond, the engine prints the shortest digits that read back
    as the same number, in exponent notation from 1e21 on. *)
Definition safe_integer (n : Z) : bool := (Z.abs n <? 9007199254740992)%Z.

Definition number_to_string (host : Host) (n : Z) : string :=
  if safe_integer n then string_of_Z n else number_text host n.

(** What [OrdinaryToPrimitive] throws when neither [toString] nor
    [valueOf] gives a primitive. *)
Definition cannot_convert : JsError :=
  mkError "TypeError" "Cannot convert object to primitive value".

(** The abstract operation [ToString]: what [String(v)], a template
    literal and [Array.prototype.join] apply to a value.  A plain object
    prints as [[object Object]] through [Object.prototype.toString],
    unless it has a key [toString] of its own: a value parsed from JSON
    is never a function, so that key cannot be called, [valueOf] gives
    back the object, and the conversion throws.  An array prints its
    items joined by commas, [null] and [undefined] items as the empty
    string, and throws when an item does. *)
Fixpoint ToString (host : Host) (v : value) : Result string :=
  match v with
  | VUndef => Ok "undefined"
  | VNull => Ok "null"
  | VBool true => Ok "true"
  | VBool false => Ok "false"
  | VNum n => Ok (number_to_string host n)
  | VStr s => Ok s
  | VArr items =>
      (fix commas (l : list value) : Result string :=
         match l with
         | [] => Ok ""
         | x :: rest =>
             let* sx := match x with
                        | VUndef | VNull => Ok ""
                        | _ => ToString host x
                        end in
             match rest with
             | [] => Ok sx
             | _ :: _ => let* t := commas rest in Ok (sx ++ "," ++ t)
             end
         end) items
  | VObj fields =>
      if has_own "toString" fields then Throw cannot_convert
      else Ok "[object Object]"
  end.

(** [Array.prototype.join(sep)]: the items are converted from left to
    right; [null] and [undefined] items print as the empty string. *)
Definition item_text (host : Host) (x : value) : Result string :=
  match x with VUndef | VNull => Ok "" | _ => ToString host x end.

Fixpoint join (host : Host) (sep : string) (l : list value) : Result string :=
  match l with
  | [] => Ok ""
  | x :: rest =>
      let* sx := item_text host x in
      match rest with
      | [] => Ok sx
      | _ :: _ => let* t := join host sep rest in Ok (sx ++ sep ++ t)
      end
  end.

(** What calling a property that is not a function throws; [callee] is
    the text of the call site. *)
Definition not_a_function (callee : string) : JsError :=
  mkError "TypeError" (callee ++ " is not a function").

Definition cannot_read (key base : string) : JsError :=
  mkError "TypeError"
    ("Cannot read properties of " ++ base ++ " (reading '" ++ key ++ "')").

(** The method call [v.toString()].  On a string, a number, a boolean
    or an array it is the conversion above.  On an object the property
    [toString] is looked up and called: the inherited one gives
    [[object Object]], a key [toString] of the object's own is not a
    function and the call throws. *)
Definition toString (host : Host) (callee : string) (v : value)
  : Result string :=
  match v with
  | VUndef => Throw (cannot_read "toString" "undefined")
  | VNull => Throw (cannot_read "toString" "null")
  | VObj fields =>
      if has_own "toString" fields then Throw (not_a_function callee)
      else Ok "[object Object]"
  | _ => ToString host v
  end.

(** [String.prototype.toLowerCase].  On ASCII text it lower-cases the
    letters A-Z and leaves the rest; any other text goes through the
    engine's Unicode case mapping. *)
Definition lower_ascii (c : ascii) : ascii :=
  let n := nat_of_ascii c in
  if (65 <=? n)%nat && (n <=? 90)%nat then ascii_of_nat (n + 32) else c.

Fixpoint lower_latin (s : string) : string :=
  match s with
  | EmptyString => EmptyString
  | String c rest => String (lower_ascii c) (lower_latin rest)
  end.

Definition is_ascii (s : string) : bool :=
  forallb (fun c => (nat_of_ascii c <? 128)%nat) (list_ascii_of_string s).

Definition toLowerCase (host : Host) (s : string) : string :=
  if is_ascii s then lower_latin s else unicode_lower host s.

(* ================================================================== *)
(** * The effect monad *)
(* ================================================================== *)

Open Scope list_scope.

Record Run (A : Type) : Type := mkRun {
  res : Result A;        (* value or exception *)
  out : list Event;      (* what happened, oldest first *)
  pend : Queue           (* log writes still in flight *)
}.
Arguments mkRun {A} res out pend.
Arguments res {A} r.
Arguments out {A} r.
Arguments pend {A} r.

Definition M (A : Type) : Type := Host -> list Event -> Queue -> Run A.

Definition ret {A} (a : A) : M A := fun _ _ q => mkRun (Ok a) [] q.

Definition bind {A B} (m : M A) (k : A -> M B) : M B :=
  fun host h q =>
    let r1 := m host h q in
    match res r1 with
    | Ok a =>
        let r2 := k a host (h ++ out r1) (pend r1) in
        mkRun (res r2) (out r1 ++ out r2) (pend r2)
    | Throw e => mkRun (Throw e) (out r1) (pend r1)
    end.

(** [try { m } catch (e) { handler e }] *)
Definition try_catch {A} (m : M A) (handler : JsError -> M A) : M A :=
  fun host h q =>
    let r1 := m host h q in
    match res r1 with
    | Ok a => r1
    | Throw e =>
        let r2 := handler e host (h ++ out r1) (pend r1) in
        mkRun (res r2) (out r1 ++ out r2) (pend r2)
    end.

Declare Scope js_scope.
Delimit Scope js_scope with js.
Notation "x <- m ;; k" := (bind m (fun x => k))
  (at level 61, m at next level, right associativity) : js_scope.
Notation "m ;; k" := (bind m (fun _ => k))
  (at level 61, right associativity) : js_scope.
Open Scope js_scope.

Definition emit (e : Event) : M unit := fun _ _ q => mkRun (Ok tt) [e] q.

(** A computation without effects, which gives a value or throws. *)
Definition eval {A} (r : Result A) : M A := fun _ _ q => mkRun r [] q.

Definition when (b : bool) (m : M unit) : M unit := if b then m else ret tt.

(** One suspension of the task: the event loop finishes the first
    [turn] queued log writes and runs their callbacks (line 36). *)
Definition finish (host : Host) (h : list Event) (w : LogFile * value)
  : list Event :=
  if disk_ok host h (fst w)
  then [EWritten (fst w) (snd w)]
  else [EWriteFailed (fst w) (snd w); EConsoleError "Log write failed:"].

Definition event_loop (host : Host) (h : list Event) (q : Queue)
  : list Event * Queue :=
  let n := turn host h in
  (flat_map (finish host h) (firstn n q), skipn n q).

(** [await op]: the call is made, the task is suspended, and it resumes
    with the value or the exception the promise settled with. *)
Definition await (op : Op) : M value :=
  fun host h q =>
    let h1 := h ++ [ECall op] in
    let lp := event_loop host h1 q in
    let r := settle host (h1 ++ fst lp) op in
    mkRun r ([ECall op] ++ fst lp ++ [ESettled op r]) (snd lp).

(** Access to the host's configuration from inside the monad. *)
Definition with_host {A} (k : Host -> M A) : M A := fun host => k host host.

(* ================================================================== *)
(** * src/index.js *)
(* ================================================================== *)

(** ** Configuration (lines 17-20): [process.env.X || default] *)

(** The values of [process.env] are strings. *)
Definition env_or (host : Host) (name default : string) : string :=
  match js_or (lookup name (process_env host)) (VStr default) with
  | VStr s => s
  | _ => default
  end.

Definition SHEET_URL (host : Host) : string :=
  env_or host "SHEET_URL"
    "https://script.google.com/macros/s/AKfycbxk4sV2xLZcKbnMQRtaMer-FxeFsUk1JjvivIK4g6f5fFFlXvQfzD92GsbEurjN7Fvw/exec".

Definition ROCKETOUR_URL (host : Host) : string :=
  env_or host "ROCKETOUR_URL" "https://rocketour.co/affiliate-form/".

Definition AFFILIATE_ID (host : Host) : string :=
  env_or host "AFFILIATE_ID" "242".

(** ** Logging (lines 33-43) *)

(** [appendJsonLine]: the line is [JSON.stringify({ ts, ...obj })] and a
    newline; the event carries the object that is serialised.
    [fs.appendFile] is the callback form: the call starts the write and
    returns, and the callback of line 35 runs from the event loop once
    the write is done, that is, not before the caller is suspended in an
    [await]. *)
Definition appendJsonLine (filePath : LogFile) (o : obj) : M unit :=
  fun host h q =>
    let line := VObj (spread [("ts", VStr (clock host h))] o) in
    mkRun (Ok tt) [EAppendFile filePath line] (q ++ [(filePath, line)]).

(** [logConsole]: the message text; the time stamp and the extra object
    printed with it are left out. *)
Definition logConsole (msg : string) : M unit := emit (EConsole msg).

(** ** The selectors and fixed texts of lines 108-143 *)

Definition sel_affiliateId : string :=
  Eval cbv in ("input[name=" ++ dq ++ "affiliateId" ++ dq ++ "]")%string.
Definition sel_city : string :=
  Eval cbv in ("input[name=" ++ dq ++ "city" ++ dq ++ "]")%string.
Definition sel_leadName : string :=
  Eval cbv in ("input[name=" ++ dq ++ "leadName" ++ dq ++ "]")%string.
Definition sel_leadPhone : string :=
  Eval cbv in ("input[name=" ++ dq ++ "leadPhone" ++ dq ++ "]")%string.
Definition sel_notes : string :=
  Eval cbv in ("textarea[name=" ++ dq ++ "notes" ++ dq ++ "]")%string.
Definition sel_submit : string :=
  Eval cbv in ("button[type=" ++ dq ++ "submit" ++ dq ++ "], input[type=" ++ dq
               ++ "submit" ++ dq ++ "], form button[type=" ++ dq ++ "submit"
               ++ dq ++ "]")%string.
Definition sel_success : string :=
  Eval cbv in ("div[class*=" ++ dq ++ "bg-green" ++ dq ++ "], div[class*=" ++ dq
               ++ "bg-green-50" ++ dq ++ "]")%string.

Definition CITY : string := "רומא".
Definition PARTICIPANTS : string := "מספר משתתפים: ".
Definition SENT_BY_WHATSAPP : string := "נשלח בוואטסאפ".
Definition SENT_BY_FORM : string := "נשלח בטופס".

Definition msg_started : string := "Rocketour background submission started.".

(** ** The request, as Express hands it over *)

Record Request : Type := mkRequest {
  req_body : value;       (* req.body; VUndef when no parser filled it *)
  req_headers : obj;      (* req.headers *)
  req_ip : value          (* req.ip *)
}.

(** Line 57 *)
Definition payload_of (req : Request) : value :=
  js_or (req_body req) (VObj []).

(** Line 59: [(payload.source || "form").toString().toLowerCase()].
    The conversion can throw, and no [try] is around it. *)
Definition source_callee : string :=
  Eval cbv in ("(payload.source || " ++ dq ++ "form" ++ dq ++ ").toString")%string.

Definition source_of (host : Host) (payload : value) : Result string :=
  let* text := toString host source_callee
                 (js_or (prop "source" payload) (VStr "form")) in
  Ok (toLowerCase host text).

(** Line 60 *)
Definition ip_of (req : Request) : value :=
  js_or (js_or (lookup "cf-connecting-ip" (req_headers req))
               (lookup "x-forwarded-for" (req_headers req)))
        (req_ip req).

(** ** The background task (lines 91-161) *)

(** Lines 122-130: the free-text notes.  The template literals of
    lines 123-124, [join] and [String] of line 127 and the [join] of
    line 130 convert values to text, in this order, and each can
    throw. *)
Definition compose_notes (host : Host) (data : value) (src : string)
  : Result string :=
  let notesParts : list value := [] in
  let* notesParts :=
    if truthy (prop "npart" data)
    then let* n := ToString host (prop "npart" data) in
         Ok (notesParts ++ [VStr (PARTICIPANTS ++ n)%string])
    else Ok notesParts in
  let* notesParts :=
    if truthy (prop "participants" data)
    then let* n := ToString host (prop "participants" data) in
         Ok (notesParts ++ [VStr (PARTICIPANTS ++ n)%string])
    else Ok notesParts in
  let notesParts :=
    if truthy (prop "tour_details" data)
    then notesParts ++ [prop "tour_details" data]
    else notesParts in
  let* notesParts :=
    if truthy (prop "tours" data)
    then let* t := match prop "tours" data with
                   | VArr items => join host ", " items
                   | other => ToString host other
                   end in
         Ok (notesParts ++ [VStr t])
    else Ok notesParts in
  let notesParts :=
    notesParts ++ [VStr (if src =? "whatsapp" then SENT_BY_WHATSAPP else SENT_BY_FORM)] in
  join host newline (filter truthy notesParts).

(** Lines 115 and 118: [x ? String(x) : ""] *)
Definition lead_text (host : Host) (x : value) : Result string :=
  if truthy x then ToString host x else Ok "".

(** [if (await page.$(sel)) await page.type(sel, text)]: the text is
    computed once the probe has found the element, before the call. *)
Definition fill_if_present (selector : string) (text : Result string) : M unit :=
  handle <- await (OQuery selector) ;;
  if truthy handle
  then (t <- eval text ;; _ <- await (OType selector t) ;; ret tt)
  else ret tt.

(** Lines 95-105: start the browser and open the partner form. *)
Definition open_partner_form : M unit :=
  with_host (fun host =>
    _ <- await OExecutablePath ;;
    _ <- await OLaunch ;;
    _ <- await ONewPage ;;
    _ <- await (OGoto (ROCKETOUR_URL host) 30000) ;;
    ret tt).

(** Lines 108-134: fill the known fields. *)
Definition fill_known_fields (data : value) (src : string) : M unit :=
  with_host (fun host =>
    fill_if_present sel_affiliateId (Ok (AFFILIATE_ID host)) ;;
    fill_if_present sel_city (Ok CITY) ;;
    fill_if_present sel_leadName (lead_text host (prop "name" data)) ;;
    fill_if_present sel_leadPhone (lead_text host (prop "phone" data)) ;;
    notes <- eval (compose_notes host data src) ;;
    fill_if_present sel_notes (Ok notes)).

(** Lines 137-154: submit and look for the green box. *)
Definition submit_and_detect (data : value) : M unit :=
  submitHandle <- await (OQuery sel_submit) ;;
  if truthy submitHandle then
    _ <- await OClick ;;
    try_catch
      (_ <- await (OWaitForSelector sel_success 5000) ;;
       appendJsonLine ROCKETOUR_LOG
         [("status", VStr "success_detected"); ("payload", data)] ;;
       logConsole "Rocketour: success box detected.")
      (fun errSel =>
       appendJsonLine ROCKETOUR_LOG
         [("status", VStr "submitted_no_green_box"); ("payload", data)] ;;
       logConsole "Rocketour: submitted but no green success box found (logged).")
  else
    appendJsonLine ROCKETOUR_LOG
      [("error", VStr "no_submit_button_found"); ("payload", data)] ;;
    logConsole "Rocketour: no submit button found on page.".

(** Lines 157-160: the [catch] of the background task. *)
Definition on_background_error (data : value) (bgErr : JsError) : M unit :=
  appendJsonLine ROCKETOUR_LOG
    [("error", VStr (errText bgErr)); ("payload", data)] ;;
  logConsole "Rocketour background error:".

Definition backgroundRocketourSubmission
    (data : value) (src : string) (clientIp : value) : M unit :=
  logConsole msg_started ;;
  try_catch
    (open_partner_form ;;
     fill_known_fields data src ;;
     submit_and_detect data ;;
     _ <- await OClose ;;
     ret tt)
    (on_background_error data).

(** ** The spreadsheet relay (lines 68-85) *)

Definition relay_to_sheet (payload : value) : M unit :=
  with_host (fun host =>
    try_catch
      (sheetResp <- await (OFetch (SHEET_URL host) payload) ;;
       if negb (truthy (prop "ok" sheetResp)) then
         text <- try_catch (await OResponseText) (fun _ => ret (VStr "")) ;;
         appendJsonLine SHEET_FAIL_LOG
           [("status", prop "status" sheetResp); ("text", text);
            ("payload", payload)] ;;
         logConsole "Google Sheets returned non-OK"
       else
         logConsole "Saved to Google Sheets (OK).")
      (fun err =>
       appendJsonLine SHEET_FAIL_LOG
         [("error", VStr (errText err)); ("payload", payload)] ;;
       logConsole "Google Sheets exception (saved locally).")).

(** ** The handler of [POST /formnew/submit] (lines 56-162) *)

(** Lines 60-161: the handler once line 59 has given the source. *)
Definition submit_with_source (req : Request) (source : string) : M unit :=
  let payload := payload_of req in
  let ip := ip_of req in
  appendJsonLine GENERAL_LOG
    [("ip", ip); ("source", VStr source); ("payload", payload)] ;;
  when (source =? "whatsapp")
    (appendJsonLine WHATSAPP_LOG [("ip", ip); ("payload", payload)]) ;;
  relay_to_sheet payload ;;
  emit (ERespond 200 (VObj [("ok", VBool true)])) ;;
  backgroundRocketourSubmission payload source ip.

(** Lines 56-162.  An exception of line 59 leaves the handler: the
    promise of the [async] function rejects, and nothing of lines 60-161
    runs. *)
Definition formnew_submit (req : Request) : M unit :=
  with_host (fun host =>
    source <- eval (source_of host (payload_of req)) ;;
    submit_with_source req source).

(** One submission, handled by a process that has nothing in flight. *)
Definition handle (host : Host) (req : Request) : Run unit :=
  formnew_submit req host [] [].

Definition trace (host : Host) (req : Request) : list Event :=
  out (handle host req).

(** Runs are unfolded by the equations below, not by [simpl]. *)
Arguments bind : simpl never.
Arguments try_catch : simpl never.
Arguments await : simpl never.
Arguments emit : simpl never.
Arguments with_host : simpl never.
Arguments appendJsonLine : simpl never.
Arguments logConsole : simpl never.
Arguments fill_if_present : simpl never.
Arguments open_partner_form : simpl never.
Arguments fill_known_fields : simpl never.
Arguments submit_and_detect : simpl never.
Arguments on_background_error : simpl never.
Arguments backgroundRocketourSubmission : simpl never.
Arguments relay_to_sheet : simpl never.
Arguments formnew_submit : simpl never.
Arguments submit_with_source : simpl never.
Arguments eval : simpl never.
Arguments ToString : simpl never.
Arguments join : simpl never.
Arguments compose_notes : simpl never.
Arguments payload_of : simpl never.
Arguments source_of : simpl never.
Arguments ip_of : simpl never.

(* ================================================================== *)
(** * What a trace shows *)
(* ================================================================== *)

(** Each observer reads one kind of fact off a trace, oldest first. *)

Definition is_append_to (f : LogFile) (e : Event) : bool :=
  match e with
  | EAppendFile f' _ => logfile_eqb f f'
  | _ => false
  end.

(** The entries handed to [fs.appendFile] for the file [f], in order. *)
Definition started (f : LogFile) (e : Event) : list value :=
  match e with
  | EAppendFile f' entry => if logfile_eqb f f' then [entry] else []
  | _ => []
  end.
Definition appended (f : LogFile) (tr : list Event) : list value :=
  flat_map (started f) tr.

(** The entries for [f] whose write has finished (its callback has
    run), in order. *)
Definition finished (f : LogFile) (e : Event) : list value :=
  match e with
  | EWritten f' entry | EWriteFailed f' entry =>
      if logfile_eqb f f' then [entry] else []
  | _ => []
  end.
Definition completed (f : LogFile) (tr : list Event) : list value :=
  flat_map (finished f) tr.

(** The entries for [f] among the writes still in flight. *)
Definition queued (f : LogFile) (w : LogFile * value) : list value :=
  if logfile_eqb f (fst w) then [snd w] else [].
Definition in_flight (f : LogFile) (q : Queue) : list value :=
  flat_map (queued f) q.

(** The [status] labels appended to the outcome log, in order. *)
Definition outcome_label (e : Event) : list string :=
  match e with
  | EAppendFile ROCKETOUR_LOG entry =>
      match prop "status" entry with VStr s => [s] | _ => [] end
  | _ => []
  end.
Definition outcome_labels (tr : list Event) : list string :=
  flat_map outcome_label tr.

(** The [error] texts appended to the outcome log, in order. *)
Definition error_label (e : Event) : list string :=
  match e with
  | EAppendFile ROCKETOUR_LOG entry =>
      match prop "error" entry with VStr s => [s] | _ => [] end
  | _ => []
  end.
Definition error_labels (tr : list Event) : list string :=
  flat_map error_label tr.

(** The message of a failed [browser.close()]. *)
Definition close_failure (e : Event) : list string :=
  match e with
  | ESettled OClose (Throw err) => [errText err]
  | _ => []
  end.
Definition close_failures (tr : list Event) : list string :=
  flat_map close_failure tr.

(** The entries appended to the outcome log, in order. *)
Definition rocketour_entry (e : Event) : list value :=
  match e with
  | EAppendFile ROCKETOUR_LOG entry => [entry]
  | _ => []
  end.
Definition rocketour_entries (tr : list Event) : list value :=
  flat_map rocketour_entry tr.

(** One [tt] for each click on the submit control. *)
Definition click (e : Event) : list unit :=
  match e with ECall OClick => [tt] | _ => [] end.
Definition clicks (tr : list Event) : list unit := flat_map click tr.

(** One [tt] for each call of [browser.close()]. *)
Definition close_call (e : Event) : list unit :=
  match e with ECall OClose => [tt] | _ => [] end.
Definition close_calls (tr : list Event) : list unit := flat_map close_call tr.

(** The texts typed into the element [selector], in order. *)
Definition typed_text (selector : string) (e : Event) : list string :=
  match e with
  | ECall (OType s text) => if s =? selector then [text] else []
  | _ => []
  end.
Definition typed_into (selector : string) (tr : list Event) : list string :=
  flat_map (typed_text selector) tr.

(** What the probes for the element [selector] resolved to. *)
Definition field_probe (selector : string) (e : Event) : list value :=
  match e with
  | ESettled (OQuery s) (Ok v) => if s =? selector then [v] else []
  | _ => []
  end.

(** The results of the wait for the green box: seen or not. *)
Definition indicator_wait (e : Event) : list bool :=
  match e with
  | ESettled (OWaitForSelector _ _) (Ok _) => [true]
  | ESettled (OWaitForSelector _ _) (Throw _) => [false]
  | _ => []
  end.

(* ================================================================== *)
(** * The stages of a submission *)
(* ================================================================== *)

(** Capture, relay, acknowledgement and background task, as the
    specification names them. *)

(** The writes that capture the lead: general log and WhatsApp log. *)
Definition is_capture_append (e : Event) : bool :=
  is_append_to GENERAL_LOG e || is_append_to WHATSAPP_LOG e.

Definition is_relay_call (e : Event) : bool :=
  match e with
  | ECall (OFetch _ _) => true
  | _ => false
  end.

Definition is_respond (e : Event) : bool :=
  match e with
  | ERespond _ _ => true
  | _ => false
  end.

Definition browser_op (op : Op) : bool :=
  match op with
  | OFetch _ _ | OResponseText => false
  | _ => true
  end.

(** What only the background task does. *)
Definition is_replicator_event (e : Event) : bool :=
  match e with
  | EConsole msg => msg =? msg_started
  | ECall op => browser_op op
  | ESettled op _ => browser_op op
  | EAppendFile ROCKETOUR_LOG _ => true
  | _ => false
  end.


Definition stage (e : Event) : option nat :=
  if is_capture_append e then Some 0%nat
  else if is_relay_call e then Some 1%nat
  else if is_respond e then Some 2%nat
  else if is_replicator_event e then Some 3%nat
  else None.

Definition stages (tr : list Event) : list nat :=
  flat_map (fun e => match stage e with Some n => [n] | None => [] end) tr.

Definition general_entry (ts source : string) (req : Request) : value :=
  VObj [("ts", VStr ts); ("ip", ip_of req);
        ("source", VStr source);
        ("payload", payload_of req)].

Definition whatsapp_entry (ts : string) (req : Request) : value :=
  VObj [("ts", VStr ts); ("ip", ip_of req); ("payload", payload_of req)].

Definition ack : Event := ERespond 200 (VObj [("ok", VBool true)]).

(** The events of lines 63-65. *)
Definition capture_events (ts1 ts2 source : string) (req : Request)
  : list Event :=
  EAppendFile GENERAL_LOG (general_entry ts1 source req) ::
  (if source =? "whatsapp"
   then [EAppendFile WHATSAPP_LOG (whatsapp_entry ts2 req)]
   else []).

(** The events before the first call to the spreadsheet endpoint. *)
Fixpoint before_relay (tr : list Event) : list Event :=
  match tr with
  | [] => []
  | e :: rest => if is_relay_call e then [] else e :: before_relay rest
  end.

Definition is_capture_written (e : Event) : bool :=
  match e with
  | EWritten GENERAL_LOG _ | EWritten WHATSAPP_LOG _ => true
  | _ => false
  end.

(** Every capture write that the run starts has finished by the time the
    relay call is made. *)
Definition capture_completes_before_relay (tr : list Event) : bool :=
  (length (filter is_capture_written (before_relay tr)) =?
   length (filter is_capture_append tr))%nat.


(* ================================================================== *)
(** * Classes of events *)
(* ================================================================== *)

(** What each part of the handler may emit. *)

(** What the event loop does on its own. *)
Definition loop_event (e : Event) : bool :=
  match e with
  | EWritten _ _ | EWriteFailed _ _ | EConsoleError _ => true
  | _ => false
  end.

(** A class that contains what the event loop does on its own. *)
Definition allows_loop (C : Event -> bool) : Prop :=
  (forall f e, C (EWritten f e) = true) /\
  (forall f e, C (EWriteFailed f e) = true) /\
  (forall msg, C (EConsoleError msg) = true).

(** The class of events of the relay stage. *)
Definition relay_class (e : Event) : bool :=
  match e with
  | EWritten _ _ | EWriteFailed _ _ | EConsoleError _ => true
  | EConsole msg => negb (msg =? msg_started)
  | ECall op | ESettled op _ => negb (browser_op op)
  | EAppendFile SHEET_FAIL_LOG _ => true
  | _ => false
  end.

(** The class of events of the background task. *)
Definition replicator_class (e : Event) : bool :=
  match e with
  | EWritten _ _ | EWriteFailed _ _ | EConsoleError _ => true
  | EConsole _ => true
  | ECall op | ESettled op _ => browser_op op
  | EAppendFile ROCKETOUR_LOG _ => true
  | _ => false
  end.

(** The relay stage makes one call to the spreadsheet endpoint; what
    follows it belongs to this narrower class. *)
Definition after_relay_call (e : Event) : bool :=
  relay_class e && negb (is_relay_call e).

(** Events of the steps that come before the probe for the submit
    control (line 137), and of the handler around them. *)
Definition submit_stage_op (op : Op) : bool :=
  match op with
  | OClick | OWaitForSelector _ _ | OClose => true
  | OQuery s => s =? sel_submit
  | _ => false
  end.

Definition before_submit (e : Event) : bool :=
  match e with
  | EAppendFile f _ => negb (logfile_eqb f ROCKETOUR_LOG)
  | ECall op | ESettled op _ => negb (submit_stage_op op)
  | _ => true
  end.

(** Events of a run that never gets to line 137. *)
Definition never_submitting (e : Event) : bool :=
  match e with
  | ECall op | ESettled op _ => negb (submit_stage_op op)
  | _ => true
  end.

(** Events that do not touch the element [selector]. *)
Definition away_from (selector : string) (e : Event) : bool :=
  match e with
  | ECall (OQuery s) | ESettled (OQuery s) _
  | ECall (OType s _) | ESettled (OType s _) _ => negb (s =? selector)
  | _ => true
  end.

(** Lines 137-160: from the probe for the submit control to the end of
    the task, with the [catch] around them. *)
Definition last_steps (data : value) : M unit :=
  try_catch
    (submit_and_detect data ;;
     _ <- await OClose ;;
     ret tt)
    (on_background_error data).

(* ================================================================== *)
(** * Properties of computations *)
(* ================================================================== *)

Definition total {A} (m : M A) : Prop :=
  forall host h q, exists a, res (m host h q) = Ok a.

Definition emits_only {A} (C : Event -> bool) (m : M A) : Prop :=
  forall host h q, Forall (fun e => C e = true) (out (m host h q)).

(** Writes finish in the order they were started, and none is lost or
    made up: what has finished, followed by what is in flight at the end,
    is what was in flight at the start followed by what was started. *)
Definition conserves {A} (m : M A) : Prop :=
  forall host h q f,
    completed f (out (m host h q)) ++ in_flight f (pend (m host h q)) =
    in_flight f q ++ appended f (out (m host h q)).

(** [m] can end with result [r] after emitting [l]. *)
Definition yields {A} (m : M A) (host : Host) (r : Result A) (l : list Event)
  : Prop :=
  exists h q, res (m host h q) = r /\ out (m host h q) = l.

(** Every run of [m] either never gets to [focus] and stays inside the
    class [Cmiss], or is a run of [focus] between two stretches that stay
    inside the class [C]. *)
Definition sandwiched {A B} (Cmiss C : Event -> bool) (focus : M B) (m : M A)
  : Prop :=
  forall host h q,
    Forall (fun e => Cmiss e = true) (out (m host h q)) \/
    exists pre r l post,
      out (m host h q) = pre ++ l ++ post /\
      yields focus host r l /\
      Forall (fun e => C e = true) pre /\
      Forall (fun e => C e = true) post.

(* ================================================================== *)
(** * Sample hosts and requests *)
(* ================================================================== *)

(** What [page.$] resolves to when the element exists. *)
Definition element_handle : value := VObj [].

(** A host where every call succeeds and every element is found. *)
Definition all_well (op : Op) : Result value :=
  match op with
  | OFetch _ _ => Ok (VObj [("ok", VBool true); ("status", VNum 200)])
  | OResponseText => Ok (VStr "")
  | OQuery _ => Ok element_handle
  | _ => Ok VUndef
  end.

(** A host that answers by [answer], finishes one queued log write at
    each suspension and has a working disk.  The sample requests hold
    ASCII text and small numbers only, so its two engine tables are
    never consulted. *)
Definition sample_host (answer : Op -> Result value) : Host :=
  mkHost [] (fun _ => "2024-05-01T10:00:00.000Z") (fun _ op => answer op)
         (fun _ => 1%nat) (fun _ _ => true)
         (fun _ => "") (fun s => s).

(** A host whose partner form has no submit control. *)
Definition no_submit_control (op : Op) : Result value :=
  match op with
  | OQuery s => if s =? sel_submit then Ok VNull else Ok element_handle
  | _ => all_well op
  end.

(** A host whose partner form never shows the green box. *)
Definition no_green_box (op : Op) : Result value :=
  match op with
  | OWaitForSelector _ _ =>
      Throw (mkError "TimeoutError" "Waiting for selector failed: 5000ms exceeded")
  | _ => all_well op
  end.

(** A host whose partner form does not load in time. *)
Definition navigation_timeout (op : Op) : Result value :=
  match op with
  | OGoto _ _ =>
      Throw (mkError "TimeoutError" "Navigation timeout of 30000 ms exceeded")
  | _ => all_well op
  end.

Definition form_request : Request :=
  mkRequest
    (VObj [("name", VStr "Dana"); ("phone", VStr "050-1234567");
           ("npart", VNum 2);
           ("tours", VArr [VStr "Colosseum"; VStr "Vatican"])])
    [("x-forwarded-for", VStr "203.0.113.7")]
    (VStr "127.0.0.1").

Definition whatsapp_request : Request :=
  mkRequest
    (VObj [("source", VStr "WhatsApp"); ("name", VStr "Dana");
           ("phone", VStr "050-1234567")])
    [("x-forwarded-for", VStr "203.0.113.7")]
    (VStr "127.0.0.1").

Definition nameless_request : Request :=
  mkRequest
    (VObj [("phone", VStr "050-1234567"); ("npart", VNum 2)])
    [("x-forwarded-for", VStr "203.0.113.7")]
    (VStr "127.0.0.1").

Definition tours_as_list : value :=
  VObj [("name", VStr "Dana"); ("npart", VNum 2);
        ("tours", VArr [VStr "Colosseum"; VStr "Vatican"])].

Definition tours_as_string : value :=
  VObj [("name", VStr "Dana"); ("npart", VNum 2);
        ("tours", VStr "Colosseum, Vatican")].

(* ================================================================== *)
(** * More of what a trace shows *)
(* ================================================================== *)

(** The errors the awaited calls rejected with, in order. *)
Definition rejection (e : Event) : list JsError :=
  match e with
  | ESettled _ (Throw err) => [err]
  | _ => []
  end.
Definition rejections (tr : list Event) : list JsError :=
  flat_map rejection tr.

(** The errors that browser calls before the submit stage rejected
    with, in order. *)
Definition early_rejection (e : Event) : list JsError :=
  match e with
  | ESettled op (Throw err) =>
      if browser_op op && negb (submit_stage_op op) then [err] else []
  | _ => []
  end.
Definition early_rejections (tr : list Event) : list JsError :=
  flat_map early_rejection tr.

(** The selectors handed to [page.$], in order. *)
Definition probe_call (e : Event) : list string :=
  match e with
  | ECall (OQuery s) => [s]
  | _ => []
  end.
Definition probes (tr : list Event) : list string := flat_map probe_call tr.

(** One [tt] for each call of [puppeteer.launch]. *)
Definition launch_call (e : Event) : list unit :=
  match e with ECall OLaunch => [tt] | _ => [] end.
Definition launches (tr : list Event) : list unit := flat_map launch_call tr.

(** The calls of [fetch]: endpoint and body, in order. *)
Definition relay_call (e : Event) : list (string * value) :=
  match e with
  | ECall (OFetch url body) => [(url, body)]
  | _ => []
  end.
Definition relay_calls (tr : list Event) : list (string * value) :=
  flat_map relay_call tr.

(** What the calls of [fetch] settled with. *)
Definition relay_result (e : Event) : list (Result value) :=
  match e with
  | ESettled (OFetch _ _) r => [r]
  | _ => []
  end.

(** What the calls of [sheetResp.text()] settled with. *)
Definition text_result (e : Event) : list (Result value) :=
  match e with
  | ESettled OResponseText r => [r]
  | _ => []
  end.

(** The two shapes of an outcome-log entry. *)
Definition error_entry (ts msg : string) (data : value) : value :=
  VObj [("ts", VStr ts); ("error", VStr msg); ("payload", data)].

Definition status_entry (ts label : string) (data : value) : value :=
  VObj [("ts", VStr ts); ("status", VStr label); ("payload", data)].

(** The five fields of lines 108-134, in the order they are probed. *)
Definition known_fields : list string :=
  [sel_affiliateId; sel_city; sel_leadName; sel_leadPhone; sel_notes].

(** Events that are not the relay's own. *)
Definition outside_relay (e : Event) : bool :=
  match e with
  | EAppendFile f _ => negb (logfile_eqb f SHEET_FAIL_LOG)
  | ECall op | ESettled op _ => browser_op op
  | _ => true
  end.

(** A computation that lets every rejection through: when a call
    rejects, it ends with the exception of that call; it may also end
    with the exception of a conversion, and then no call rejected. *)
Definition accounts {A} (m : M A) : Prop :=
  forall host r l,
    yields m host r l ->
    match r with
    | Ok _ => rejections l = []
    | Throw e => rejections l = [e] \/ rejections l = []
    end.

(** A host on which the browser cannot be launched. *)
Definition launch_fails (op : Op) : Result value :=
  match op with
  | OLaunch => Throw (mkError "Error" "Failed to launch the browser process")
  | _ => all_well op
  end.

(** A host whose spreadsheet endpoint answers 500. *)
Definition relay_500 (op : Op) : Result value :=
  match op with
  | OFetch _ _ => Ok (VObj [("ok", VBool false); ("status", VNum 500)])
  | OResponseText => Ok (VStr "Internal Server Error")
  | _ => all_well op
  end.

(** A host whose spreadsheet endpoint cannot be reached. *)
Definition relay_down (op : Op) : Result value :=
  match op with
  | OFetch _ _ => Throw (mkError "FetchError" "connect ECONNREFUSED")
  | _ => all_well op
  end.

(** Events of the handler before it hands over to the background task:
    no browser call, no outcome-log entry. *)
Definition outside_browser (e : Event) : bool :=
  match e with
  | EAppendFile f _ => negb (logfile_eqb f ROCKETOUR_LOG)
  | ECall op | ESettled op _ => negb (browser_op op)
  | _ => true
  end.

(** The body text read from a non-OK response, or the empty string when
    reading it failed (line 76). *)
Definition response_text (tr : list Event) : value :=
  match flat_map text_result tr with
  | Ok t :: _ => t
  | _ => VStr ""
  end.

(** Lines 108-134 as a table: each known field with the text the task
    types into it. *)
Definition field_texts (host : Host) (data : value) (src : string)
  : list (string * Result string) :=
  [(sel_affiliateId, Ok (AFFILIATE_ID host));
   (sel_city, Ok CITY);
   (sel_leadName, lead_text host (prop "name" data));
   (sel_leadPhone, lead_text host (prop "phone" data));
   (sel_notes, compose_notes host data src)].

(** What a fill types: the text, or nothing when computing it threw. *)
Definition typed_of (text : Result string) : list string :=
  match text with
  | Ok t => [t]
  | Throw _ => []
  end.

(** A host whose partner form has no field for the affiliate. *)
Definition no_affiliate_field (op : Op) : Result value :=
  match op with
  | OQuery s => if s =? sel_affiliateId then Ok VNull else Ok element_handle
  | _ => all_well op
  end.

(** Line 129: the last line of the notes names the channel. *)
Definition channel_marker (src : string) : string :=
  if src =? "whatsapp" then SENT_BY_WHATSAPP else SENT_BY_FORM.

(** Two payloads that differ only in a tour list without text. *)
Definition empty_tour_list : value :=
  VObj [("name", VStr "Dana"); ("npart", VNum 2); ("tours", VArr [])].
Definition no_tour_list : value :=
  VObj [("name", VStr "Dana"); ("npart", VNum 2)].

(** A submission whose [source] is an object with a key [toString]:
    the JSON body [{"source": {"toString": 1}, "name": "Dana", ...}]. *)
Definition unprintable_source_request : Request :=
  mkRequest
    (VObj [("source", VObj [("toString", VNum 1)]);
           ("name", VStr "Dana"); ("phone", VStr "050-1234567")])
    [("x-forwarded-for", VStr "203.0.113.7")]
    (VStr "127.0.0.1").

(** A submission whose [name] is such an object. *)
Definition unprintable_name_request : Request :=
  mkRequest
    (VObj [("name", VObj [("toString", VNum 1)]);
           ("phone", VStr "050-1234567")])
    [("x-forwarded-for", VStr "203.0.113.7")]
    (VStr "127.0.0.1").

(* ================================================================== *)
(** * Reasoning about runs *)
(* ================================================================== *)

(** Membership in the trace of a sample run, by evaluation. *)
Ltac find_in_trace :=
  vm_compute; repeat first [ left; reflexivity | right ].

Section Runs.
Context {A B : Type}.

Lemma out_bind (m : M A) (k : A -> M B) host h q :
  out (bind m k host h q) =
  out (m host h q) ++
  match res (m host h q) with
  | Ok a => out (k a host (h ++ out (m host h q)) (pend (m host h q)))
  | Throw _ => []
  end.
Proof.
  unfold bind. destruct (res (m host h q)); simpl; auto using app_nil_r.
Qed.

Lemma res_bind (m : M A) (k : A -> M B) host h q :
  res (bind m k host h q) =
  match res (m host h q) with
  | Ok a => res (k a host (h ++ out (m host h q)) (pend (m host h q)))
  | Throw e => Throw e
  end.
Proof. unfold bind. destruct (res (m host h q)); reflexivity. Qed.

Lemma pend_bind (m : M A) (k : A -> M B) host h q :
  pend (bind m k host h q) =
  match res (m host h q) with
  | Ok a => pend (k a host (h ++ out (m host h q)) (pend (m host h q)))
  | Throw e => pend (m host h q)
  end.
Proof. unfold bind. destruct (res (m host h q)); reflexivity. Qed.

Lemma out_try (m : M A) (handler : JsError -> M A) host h q :
  out (try_catch m handler host h q) =
  out (m host h q) ++
  match res (m host h q) with
  | Ok _ => []
  | Throw e => out (handler e host (h ++ out (m host h q)) (pend (m host h q)))
  end.
Proof.
  unfold try_catch. destruct (res (m host h q)); simpl; auto using app_nil_r.
Qed.

Lemma res_try (m : M A) (handler : JsError -> M A) host h q :
  res (try_catch m handler host h q) =
  match res (m host h q) with
  | Ok a => Ok a
  | Throw e => res (handler e host (h ++ out (m host h q)) (pend (m host h q)))
  end.
Proof.
  unfold try_catch. destruct (res (m host h q)) eqn:E; simpl; auto.
Qed.

Lemma pend_try (m : M A) (handler : JsError -> M A) host h q :
  pend (try_catch m handler host h q) =
  match res (m host h q) with
  | Ok _ => pend (m host h q)
  | Throw e => pend (handler e host (h ++ out (m host h q)) (pend (m host h q)))
  end.
Proof.
  unfold try_catch. destruct (res (m host h q)); reflexivity.
Qed.
End Runs.

(** ** The primitives *)

Lemma out_emit e host h q : out (emit e host h q) = [e].
Proof. reflexivity. Qed.

Lemma res_emit e host h q : res (emit e host h q) = Ok tt.
Proof. reflexivity. Qed.

Lemma out_logConsole msg host h q : out (logConsole msg host h q) = [EConsole msg].
Proof. reflexivity. Qed.

Lemma res_logConsole msg host h q : res (logConsole msg host h q) = Ok tt.
Proof. reflexivity. Qed.

Lemma out_appendJsonLine f o host h q :
  out (appendJsonLine f o host h q) =
  [EAppendFile f (VObj (spread [("ts", VStr (clock host h))] o))].
Proof. reflexivity. Qed.

Lemma res_appendJsonLine f o host h q : res (appendJsonLine f o host h q) = Ok tt.
Proof. reflexivity. Qed.

Lemma out_await op host h q :
  out (await op host h q) =
  ECall op :: fst (event_loop host (h ++ [ECall op]) q) ++
  [ESettled op (res (await op host h q))].
Proof. reflexivity. Qed.

Lemma out_eval {A} (r : Result A) host h q : out (eval r host h q) = [].
Proof. reflexivity. Qed.

Lemma res_eval {A} (r : Result A) host h q : res (eval r host h q) = r.
Proof. reflexivity. Qed.

Lemma out_with_host {A} (k : Host -> M A) host h q :
  out (with_host k host h q) = out (k host host h q).
Proof. reflexivity. Qed.

Lemma res_with_host {A} (k : Host -> M A) host h q :
  res (with_host k host h q) = res (k host host h q).
Proof. reflexivity. Qed.

(** ** Computations that cannot throw *)

Lemma total_ret {A} (a : A) : total (ret a).
Proof. intros host h q. exists a. reflexivity. Qed.

Lemma total_emit e : total (emit e).
Proof. intros host h q. exists tt. reflexivity. Qed.

Lemma total_appendJsonLine f o : total (appendJsonLine f o).
Proof. intros host h q. exists tt. reflexivity. Qed.

Lemma total_logConsole msg : total (logConsole msg).
Proof. apply total_emit. Qed.

Lemma total_bind {A B} (m : M A) (k : A -> M B) :
  total m -> (forall a, total (k a)) -> total (bind m k).
Proof.
  intros Hm Hk host h q. rewrite res_bind.
  destruct (Hm host h q) as [a ->]. apply Hk.
Qed.

Lemma total_try {A} (m : M A) (handler : JsError -> M A) :
  (forall e, total (handler e)) -> total (try_catch m handler).
Proof.
  intros Hh host h q. rewrite res_try.
  destruct (res (m host h q)) as [a|e]; [eauto | apply Hh].
Qed.

Lemma total_when b (m : M unit) : total m -> total (when b m).
Proof. destruct b; simpl; auto using total_ret. Qed.

Lemma total_with_host {A} (k : Host -> M A) :
  (forall host, total (k host)) -> total (with_host k).
Proof. intros Hk host h q. apply Hk. Qed.

Lemma total_unit (m : M unit) host h q :
  total m -> res (m host h q) = Ok tt.
Proof. intros Hm. destruct (Hm host h q) as [[] ->]. reflexivity. Qed.

(** After a computation that cannot throw, the rest always runs. *)
Lemma out_seq {B} (m : M unit) (k : unit -> M B) host h q :
  total m ->
  exists h' q',
    out (bind m k host h q) = out (m host h q) ++ out (k tt host h' q').
Proof.
  intros Hm. rewrite out_bind, (total_unit m host h q Hm). eauto.
Qed.

(** ** Computations whose events all belong to a class *)

Lemma event_loop_only C host h q :
  allows_loop C -> Forall (fun e => C e = true) (fst (event_loop host h q)).
Proof.
  intros (Hw & Hf & Hc). unfold event_loop; simpl.
  induction (firstn (turn host h) q) as [|w l IH]; simpl; [constructor|].
  apply Forall_app; split; [|exact IH].
  unfold finish. destruct (disk_ok host h (fst w)); repeat constructor; auto.
Qed.

Section EmitsOnly.
Variable C : Event -> bool.

Lemma only_ret {A} (a : A) : emits_only C (ret a).
Proof. intros host h q. constructor. Qed.

Lemma only_eval {A} (r : Result A) : emits_only C (eval r).
Proof. intros host h q. constructor. Qed.

Lemma only_emit e : C e = true -> emits_only C (emit e).
Proof. intros He host h q. repeat constructor; auto. Qed.

Lemma only_logConsole msg : C (EConsole msg) = true -> emits_only C (logConsole msg).
Proof. apply only_emit. Qed.

Lemma only_appendJsonLine f o :
  (forall ts, C (EAppendFile f (VObj (spread [("ts", VStr ts)] o))) = true) ->
  emits_only C (appendJsonLine f o).
Proof. intros He host h q. repeat constructor; auto. Qed.

Lemma only_await op :
  allows_loop C -> C (ECall op) = true ->
  (forall r, C (ESettled op r) = true) ->
  emits_only C (await op).
Proof.
  intros Hl Hc Hs host h q. unfold await; simpl.
  constructor; [exact Hc|].
  apply Forall_app; split; [apply event_loop_only; exact Hl|].
  repeat constructor; auto.
Qed.

Lemma only_bind {A B} (m : M A) (k : A -> M B) :
  emits_only C m -> (forall a, emits_only C (k a)) -> emits_only C (bind m k).
Proof.
  intros Hm Hk host h q. rewrite out_bind.
  apply Forall_app; split; [apply Hm|].
  destruct (res (m host h q)); [apply Hk | constructor].
Qed.

Lemma only_try {A} (m : M A) (handler : JsError -> M A) :
  emits_only C m -> (forall e, emits_only C (handler e)) ->
  emits_only C (try_catch m handler).
Proof.
  intros Hm Hh host h q. rewrite out_try.
  apply Forall_app; split; [apply Hm|].
  destruct (res (m host h q)); [constructor | apply Hh].
Qed.

Lemma only_when b (m : M unit) : emits_only C m -> emits_only C (when b m).
Proof. destruct b; simpl; auto using only_ret. Qed.

Lemma only_with_host {A} (k : Host -> M A) :
  (forall host, emits_only C (k host)) -> emits_only C (with_host k).
Proof. intros Hk host h q. apply Hk. Qed.

Lemma only_if {A} (b : bool) (m1 m2 : M A) :
  emits_only C m1 -> emits_only C m2 -> emits_only C (if b then m1 else m2).
Proof. destruct b; auto. Qed.
End EmitsOnly.

(** A run confined to a class shows nothing to a filter disjoint from it. *)
Lemma filter_outside (C P : Event -> bool) (l : list Event) :
  (forall e, C e = true -> P e = false) ->
  Forall (fun e => C e = true) l -> filter P l = [].
Proof.
  intros HCP Hl. induction Hl as [|e l He _ IH]; simpl; [reflexivity|].
  rewrite (HCP e He). exact IH.
Qed.

(** What a list confined to a class shows to an observer blind to it. *)
Lemma flat_map_outside {X} (C : Event -> bool) (g : Event -> list X) l :
  (forall e, C e = true -> g e = []) ->
  Forall (fun e => C e = true) l -> flat_map g l = [].
Proof.
  intros Hg Hl. induction Hl as [|e l He _ IH]; simpl; [reflexivity|].
  rewrite (Hg e He). exact IH.
Qed.

Ltac only_step :=
  lazymatch goal with
  | |- emits_only _ (ret _) => apply only_ret
  | |- emits_only _ (eval _) => apply only_eval
  | |- emits_only _ (logConsole _) => apply only_logConsole
  | |- emits_only _ (emit _) => apply only_emit
  | |- emits_only _ (appendJsonLine _ _) => apply only_appendJsonLine
  | |- emits_only _ (await _) => apply only_await
  | |- emits_only _ (bind _ _) => apply only_bind
  | |- emits_only _ (try_catch _ _) => apply only_try
  | |- emits_only _ (when _ _) => apply only_when
  | |- emits_only _ (with_host _) => apply only_with_host
  | |- emits_only _ (if _ then _ else _) => apply only_if
  end.

(** Turn a goal about one run into a goal about the computation. *)
Ltac run_of C :=
  lazymatch goal with
  | |- Forall _ (out (?m ?host ?h ?q)) =>
      let H := fresh "H" in
      assert (H : emits_only C m); [| exact (H host h q)]
  end.

Ltac only_auto :=
  repeat (intros; only_step);
  try solve [ repeat split; intros; reflexivity ].

(* ================================================================== *)
(** * The stages of one submission *)
(* ================================================================== *)

Lemma relay_total payload : total (relay_to_sheet payload).
Proof.
  apply total_with_host; intros host. apply total_try; intros e.
  apply total_bind; [apply total_appendJsonLine | intros _; apply total_logConsole].
Qed.

(** The handler and the background task never throw: every failure of
    the relay or of the browser ends in a [catch]. *)
Lemma replicator_total data src ip :
  total (backgroundRocketourSubmission data src ip).
Proof.
  unfold backgroundRocketourSubmission.
  apply total_bind; [apply total_logConsole | intros _].
  apply total_try; intros e. unfold on_background_error.
  apply total_bind; [apply total_appendJsonLine | intros _; apply total_logConsole].
Qed.

Lemma submission_total req src : total (submit_with_source req src).
Proof.
  unfold submit_with_source.
  apply total_bind; [apply total_appendJsonLine | intros _].
  apply total_bind; [apply total_when, total_appendJsonLine | intros _].
  apply total_bind; [apply relay_total | intros _].
  apply total_bind; [apply total_emit | intros _].
  apply replicator_total.
Qed.

Lemma relay_only payload : emits_only relay_class (relay_to_sheet payload).
Proof. unfold relay_to_sheet. only_auto. Qed.

Lemma replicator_only data src ip :
  emits_only replicator_class (backgroundRocketourSubmission data src ip).
Proof.
  unfold backgroundRocketourSubmission, open_partner_form, fill_known_fields,
    submit_and_detect, fill_if_present, on_background_error.
  only_auto.
Qed.

Lemma replicator_starts data src ip host h q :
  exists rest,
    out (backgroundRocketourSubmission data src ip host h q) =
    EConsole msg_started :: ECall OExecutablePath :: rest.
Proof.
  unfold backgroundRocketourSubmission.
  rewrite out_bind, out_logConsole, res_logConsole, out_try.
  unfold open_partner_form.
  rewrite out_bind, out_with_host, out_bind, out_await.
  rewrite <- !app_comm_cons. cbn [app]. eexists. reflexivity.
Qed.

(** ** Line 59 *)

(** When line 59 gives the source, the handler goes on with it. *)
Lemma handle_resolved host req src :
  source_of host (payload_of req) = Ok src ->
  trace host req = out (submit_with_source req src host [] []) /\
  res (handle host req) = res (submit_with_source req src host [] []).
Proof.
  intros Hs. unfold trace, handle, formnew_submit.
  rewrite out_with_host, res_with_host, out_bind, res_bind, out_eval, res_eval, Hs.
  split; reflexivity.
Qed.

(** When line 59 throws, nothing else happens. *)
Lemma handle_unresolved host req e :
  source_of host (payload_of req) = Throw e ->
  trace host req = [] /\ res (handle host req) = Throw e.
Proof.
  intros Hs. unfold trace, handle, formnew_submit.
  rewrite out_with_host, res_with_host, out_bind, res_bind, out_eval, res_eval, Hs.
  split; reflexivity.
Qed.

(** A run in which something happened got past line 59. *)
Lemma happened_resolved host req e :
  In e (trace host req) ->
  exists src, source_of host (payload_of req) = Ok src.
Proof.
  intros Hin. destruct (source_of host (payload_of req)) as [src|err] eqn:Hs.
  - exists src. reflexivity.
  - rewrite (proj1 (handle_unresolved host req err Hs)) in Hin. contradiction.
Qed.

(** The trace of a submission: capture, relay, acknowledgement,
    background task, in this order. *)
Lemma trace_split host req src :
  source_of host (payload_of req) = Ok src ->
  exists ts1 ts2 h1 q1 h2 q2,
    trace host req =
    capture_events ts1 ts2 src req ++
    out (relay_to_sheet (payload_of req) host h1 q1) ++
    [ack] ++
    out (backgroundRocketourSubmission (payload_of req)
           src (ip_of req) host h2 q2).
Proof.
  intros Hsrc. rewrite (proj1 (handle_resolved host req src Hsrc)).
  unfold submit_with_source.
  destruct (out_seq (appendJsonLine GENERAL_LOG
              [("ip", ip_of req); ("source", VStr (src));
               ("payload", payload_of req)])
            (fun _ =>
               when (src =? "whatsapp")
                 (appendJsonLine WHATSAPP_LOG
                    [("ip", ip_of req); ("payload", payload_of req)]) ;;
               relay_to_sheet (payload_of req) ;;
               emit ack ;;
               backgroundRocketourSubmission (payload_of req)
                 (src) (ip_of req))
            host [] [] (total_appendJsonLine _ _)) as (h0 & q0 & E0).
  unfold ack in E0 |- *. rewrite E0; clear E0.
  destruct (out_seq (when (src =? "whatsapp")
                       (appendJsonLine WHATSAPP_LOG
                          [("ip", ip_of req); ("payload", payload_of req)]))
            (fun _ =>
               relay_to_sheet (payload_of req) ;;
               emit ack ;;
               backgroundRocketourSubmission (payload_of req)
                 (src) (ip_of req))
            host h0 q0 (total_when _ _ (total_appendJsonLine _ _)))
    as (h1 & q1 & E1).
  unfold ack in E1 |- *. rewrite E1; clear E1.
  destruct (out_seq (relay_to_sheet (payload_of req))
            (fun _ =>
               emit ack ;;
               backgroundRocketourSubmission (payload_of req)
                 (src) (ip_of req))
            host h1 q1 (relay_total _)) as (h2 & q2 & E2).
  unfold ack in E2 |- *. rewrite E2; clear E2.
  destruct (out_seq (emit ack)
            (fun _ =>
               backgroundRocketourSubmission (payload_of req)
                 (src) (ip_of req))
            host h2 q2 (total_emit _)) as (h3 & q3 & E3).
  unfold ack in E3 |- *. rewrite E3; clear E3.
  exists (clock host []), (clock host h0), h1, q1, h3, q3.
  rewrite out_emit, out_appendJsonLine. unfold capture_events, when.
  destruct (src =? "whatsapp"); reflexivity.
Qed.

Lemma relay_shape payload host h q :
  exists rest,
    out (relay_to_sheet payload host h q) =
    ECall (OFetch (SHEET_URL host) payload) :: rest /\
    Forall (fun e => after_relay_call e = true) rest.
Proof.
  unfold relay_to_sheet. rewrite out_with_host, out_try, out_bind, out_await.
  rewrite <- !app_comm_cons, <- !app_assoc. eexists. split; [reflexivity|].
  assert (Hloop : allows_loop after_relay_call) by (repeat split).
  apply Forall_app; split; [apply event_loop_only; exact Hloop|].
  apply Forall_app; split; [repeat constructor|].
  apply Forall_app; split.
  - destruct (res (await _ _ _ _)) as [sheetResp|e]; [|constructor].
    run_of after_relay_call. only_auto.
  - match goal with
    | |- context [match ?r with Ok _ => [] | Throw _ => _ end] => destruct r as [|e]
    end; [constructor|].
    run_of after_relay_call. only_auto.
Qed.

(** ** The four stages and their order *)

Lemma stages_app l1 l2 : stages (l1 ++ l2) = stages l1 ++ stages l2.
Proof. apply flat_map_app. Qed.

Lemma stage_after_relay_call e : after_relay_call e = true -> stage e = None.
Proof.
  destruct e as [f ?|? ?|? ?|?|msg|op|op ?|? ?];
    try destruct f; try destruct op; try discriminate; try reflexivity.
  unfold after_relay_call, stage, relay_class; simpl.
  destruct (msg =? msg_started); [discriminate | reflexivity].
Qed.

Lemma stage_replicator e :
  replicator_class e = true -> stage e = None \/ stage e = Some 3%nat.
Proof.
  destruct e as [f ?|? ?|? ?|?|msg|op|op ?|? ?];
    try destruct f; try destruct op; try discriminate; auto.
  intros _. unfold stage; simpl. destruct (msg =? msg_started); auto.
Qed.

Lemma stages_relay_rest l :
  Forall (fun e => after_relay_call e = true) l -> stages l = [].
Proof.
  induction 1 as [|e l He _ IH]; [reflexivity|].
  unfold stages in *; simpl. rewrite (stage_after_relay_call e He). exact IH.
Qed.

Lemma stages_replicator l :
  Forall (fun e => replicator_class e = true) l ->
  exists n, stages l = repeat 3%nat n.
Proof.
  induction 1 as [|e l He _ [n IH]]; [exists 0%nat; reflexivity|].
  unfold stages in *; simpl.
  destruct (stage_replicator e He) as [-> | ->]; simpl.
  - exists n. exact IH.
  - exists (S n). simpl. rewrite IH. reflexivity.
Qed.

Lemma stages_capture ts1 ts2 src req :
  stages (capture_events ts1 ts2 src req) =
  if src =? "whatsapp" then [0; 0]%nat else [0%nat].
Proof.
  unfold capture_events.
  destruct (src =? "whatsapp"); reflexivity.
Qed.

(** Disjointness of a class and a filter, by inspection of the event. *)
Ltac by_cases_on_event :=
  let e := fresh "e" in
  intros e;
  destruct e;
  repeat match goal with
         | x : LogFile |- _ => destruct x
         | x : Op |- _ => destruct x
         end;
  simpl; intros; try reflexivity; try discriminate; try congruence.

Lemma relay_no_respond : forall e, relay_class e = true -> is_respond e = false.
Proof. by_cases_on_event. Qed.

Lemma replicator_no_respond : forall e, replicator_class e = true -> is_respond e = false.
Proof. by_cases_on_event. Qed.

(* ================================================================== *)
(** * The handler: capture, relay, acknowledgement, hand-over *)
(* ================================================================== *)

Lemma filter_capture_respond ts1 ts2 src req :
  filter is_respond (capture_events ts1 ts2 src req) = [].
Proof.
  unfold capture_events.
  destruct (src =? "whatsapp"); reflexivity.
Qed.

(** Once line 59 has given the source, the handler answers exactly
    once, after the general-log append was issued. *)
Lemma one_ack_after_capture host req src :
  source_of host (payload_of req) = Ok src ->
  filter is_respond (trace host req) = [ack] /\
  exists ts pre post,
    trace host req = pre ++ ack :: post /\
    In (EAppendFile GENERAL_LOG (general_entry ts src req)) pre.
Proof.
  intros Hsrc.
  destruct (trace_split host req src Hsrc) as (ts1 & ts2 & h1 & q1 & h2 & q2 & E).
  split.
  - rewrite E, !filter_app, filter_capture_respond.
    rewrite (filter_outside relay_class is_respond _ relay_no_respond
               (relay_only (payload_of req) host h1 q1)).
    rewrite (filter_outside replicator_class is_respond _ replicator_no_respond
               (replicator_only (payload_of req) src (ip_of req) host h2 q2)).
    reflexivity.
  - exists ts1. eexists. eexists. split.
    + rewrite E, app_assoc. reflexivity.
    + apply in_or_app. left. left. reflexivity.
Qed.

(** C4. Every answer the handler sends has status 200 and body
    [{ok: true}].  Whenever the call to the spreadsheet endpoint has
    been made, whatever it settled with (every [host] is allowed: an OK
    answer, a 500, a rejected or timed-out call), the handler answers
    the client exactly once, with that answer, and it does so after the
    general-log append of the record was issued. *)
Theorem ack_is_fixed_and_unconditional (host : Host) (req : Request) :
  (forall e, In e (trace host req) -> is_respond e = true ->
             e = ERespond 200 (VObj [("ok", VBool true)])) /\
  (forall url body r,
     In (ESettled (OFetch url body) r) (trace host req) ->
     filter is_respond (trace host req) =
       [ERespond 200 (VObj [("ok", VBool true)])] /\
     exists ts src pre post,
       trace host req = pre ++ ERespond 200 (VObj [("ok", VBool true)]) :: post /\
       In (EAppendFile GENERAL_LOG (general_entry ts src req)) pre).
Proof.
  split.
  - intros e Hin He.
    destruct (happened_resolved host req e Hin) as (src & Hsrc).
    destruct (one_ack_after_capture host req src Hsrc) as (Hf & _).
    assert (Hin' : In e (filter is_respond (trace host req)))
      by (apply filter_In; split; assumption).
    rewrite Hf in Hin'. destruct Hin' as [<-|[]]. reflexivity.
  - intros url body r Hin.
    destruct (happened_resolved host req _ Hin) as (src & Hsrc).
    destruct (one_ack_after_capture host req src Hsrc)
      as (Hf & ts & pre & post & E & Hpre).
    split; [exact Hf|]. exists ts, src, pre, post. split; assumption.
Qed.

Lemma ack_witness :
  In (ESettled (OFetch (SHEET_URL (sample_host relay_500))
                       (payload_of form_request))
        (Ok (VObj [("ok", VBool false); ("status", VNum 500)])))
     (trace (sample_host relay_500) form_request) /\
  filter is_respond (trace (sample_host relay_500) form_request) =
    [ERespond 200 (VObj [("ok", VBool true)])] /\
  In (ESettled (OFetch (SHEET_URL (sample_host relay_down))
                       (payload_of form_request))
        (Throw (mkError "FetchError" "connect ECONNREFUSED")))
     (trace (sample_host relay_down) form_request) /\
  filter is_respond (trace (sample_host relay_down) form_request) =
    [ERespond 200 (VObj [("ok", VBool true)])].
Proof.
  assert (H1 : In (ESettled (OFetch (SHEET_URL (sample_host relay_500))
                                    (payload_of form_request))
                     (Ok (VObj [("ok", VBool false); ("status", VNum 500)])))
                  (trace (sample_host relay_500) form_request))
    by find_in_trace.
  assert (H2 : In (ESettled (OFetch (SHEET_URL (sample_host relay_down))
                                    (payload_of form_request))
                     (Throw (mkError "FetchError" "connect ECONNREFUSED")))
                  (trace (sample_host relay_down) form_request))
    by find_in_trace.
  split; [exact H1|]. split.
  - apply (proj2 (ack_is_fixed_and_unconditional
                    (sample_host relay_500) form_request) _ _ _ H1).
  - split; [exact H2|].
    apply (proj2 (ack_is_fixed_and_unconditional
                    (sample_host relay_down) form_request) _ _ _ H2).
Defined.

Lemma GENERAL_not_SHEET : GENERAL_LOG <> SHEET_FAIL_LOG.
Proof. discriminate. Qed.
Lemma GENERAL_not_ROCKETOUR : GENERAL_LOG <> ROCKETOUR_LOG.
Proof. discriminate. Qed.

(** ** Log writes are conserved *)

Lemma conserves_ret {A} (a : A) : conserves (ret a).
Proof. intros host h q f. unfold completed, appended. simpl. rewrite app_nil_r. reflexivity. Qed.

Lemma conserves_eval {A} (r : Result A) : conserves (eval r).
Proof. intros host h q f. unfold completed, appended. simpl. rewrite app_nil_r. reflexivity. Qed.

Lemma conserves_emit e :
  (forall f, started f e = []) -> (forall f, finished f e = []) ->
  conserves (emit e).
Proof.
  intros Hs Hf host h q f. unfold completed, appended.
  rewrite out_emit. cbn [flat_map]. rewrite Hs, Hf.
  simpl. rewrite app_nil_r. reflexivity.
Qed.

Lemma conserves_logConsole msg : conserves (logConsole msg).
Proof. apply conserves_emit; reflexivity. Qed.

Lemma in_flight_app f q1 q2 :
  in_flight f (q1 ++ q2) = in_flight f q1 ++ in_flight f q2.
Proof. apply flat_map_app. Qed.

Lemma conserves_appendJsonLine f0 o : conserves (appendJsonLine f0 o).
Proof.
  intros host h q f. unfold completed, appended.
  rewrite out_appendJsonLine. unfold appendJsonLine. cbn [pend flat_map finished started].
  rewrite in_flight_app. unfold in_flight at 2, queued. cbn [flat_map fst snd].
  rewrite !app_nil_r. reflexivity.
Qed.

Lemma completed_finish f host h (ws : Queue) :
  completed f (flat_map (finish host h) ws) = in_flight f ws.
Proof.
  unfold completed, in_flight. induction ws as [|w ws IH]; [reflexivity|].
  cbn [flat_map]. rewrite flat_map_app, IH. f_equal.
  unfold finish, queued. destruct (disk_ok host h (fst w)); cbn;
    destruct (logfile_eqb f (fst w)); reflexivity.
Qed.

Lemma conserves_await op : conserves (await op).
Proof.
  intros host h q f. rewrite out_await.
  unfold completed, appended. cbn [flat_map finished started app].
  rewrite !flat_map_app. cbn [flat_map finished started app].
  rewrite !app_nil_r.
  assert (Hno : flat_map (started f) (fst (event_loop host (h ++ [ECall op]) q)) = []).
  { apply (flat_map_outside loop_event).
    - intros []; simpl; auto; discriminate.
    - apply event_loop_only. repeat split. }
  rewrite Hno, app_nil_r.
  unfold await, event_loop. cbn [pend fst snd].
  fold (completed f (flat_map (finish host (h ++ [ECall op]))
                       (firstn (turn host (h ++ [ECall op])) q))).
  rewrite completed_finish, <- in_flight_app, firstn_skipn. reflexivity.
Qed.

Lemma conserves_bind {A B} (m : M A) (k : A -> M B) :
  conserves m -> (forall a, conserves (k a)) -> conserves (bind m k).
Proof.
  intros Hm Hk host h q f. rewrite out_bind, pend_bind.
  specialize (Hm host h q f).
  destruct (res (m host h q)) as [a|e].
  - specialize (Hk a host (h ++ out (m host h q)) (pend (m host h q)) f).
    unfold completed, appended in *. rewrite !flat_map_app.
    rewrite <- app_assoc, Hk, app_assoc, Hm, <- app_assoc. reflexivity.
  - rewrite app_nil_r. exact Hm.
Qed.

Lemma conserves_try {A} (m : M A) (handler : JsError -> M A) :
  conserves m -> (forall e, conserves (handler e)) ->
  conserves (try_catch m handler).
Proof.
  intros Hm Hh host h q f. rewrite out_try, pend_try.
  specialize (Hm host h q f).
  destruct (res (m host h q)) as [a|e].
  - rewrite app_nil_r. exact Hm.
  - specialize (Hh e host (h ++ out (m host h q)) (pend (m host h q)) f).
    unfold completed, appended in *. rewrite !flat_map_app.
    rewrite <- app_assoc, Hh, app_assoc, Hm, <- app_assoc. reflexivity.
Qed.

Lemma conserves_when b (m : M unit) : conserves m -> conserves (when b m).
Proof. destruct b; simpl; auto using conserves_ret. Qed.

Lemma conserves_with_host {A} (k : Host -> M A) :
  (forall host, conserves (k host)) -> conserves (with_host k).
Proof. intros Hk host h q f. apply Hk. Qed.

Lemma conserves_if {A} (b : bool) (m1 m2 : M A) :
  conserves m1 -> conserves m2 -> conserves (if b then m1 else m2).
Proof. destruct b; auto. Qed.

Ltac conserves_auto :=
  repeat (intros;
          lazymatch goal with
          | |- conserves (ret _) => apply conserves_ret
          | |- conserves (eval _) => apply conserves_eval
          | |- conserves (logConsole _) => apply conserves_logConsole
          | |- conserves (emit _) => apply conserves_emit; reflexivity
          | |- conserves (appendJsonLine _ _) => apply conserves_appendJsonLine
          | |- conserves (await _) => apply conserves_await
          | |- conserves (bind _ _) => apply conserves_bind
          | |- conserves (try_catch _ _) => apply conserves_try
          | |- conserves (when _ _) => apply conserves_when
          | |- conserves (with_host _) => apply conserves_with_host
          | |- conserves (if _ then _ else _) => apply conserves_if
          end).

Lemma submission_conserves req : conserves (formnew_submit req).
Proof.
  unfold formnew_submit, submit_with_source, relay_to_sheet,
    backgroundRocketourSubmission, open_partner_form, fill_known_fields,
    submit_and_detect, fill_if_present, on_background_error.
  conserves_auto.
Qed.

(** During one submission, the writes that have finished for a file are
    the first of those that were started for it. *)
Lemma completed_prefix_of_appended f host req :
  exists later, completed f (trace host req) ++ later = appended f (trace host req).
Proof.
  exists (in_flight f (pend (handle host req))).
  apply (submission_conserves req host [] [] f).
Qed.

(** Appends to the two capture logs come from lines 63-65 only. *)
Lemma relay_no_start f :
  f <> SHEET_FAIL_LOG -> forall e, relay_class e = true -> started f e = [].
Proof. intros Hf. by_cases_on_event. Qed.

Lemma replicator_no_start f :
  f <> ROCKETOUR_LOG -> forall e, replicator_class e = true -> started f e = [].
Proof. intros Hf. by_cases_on_event. Qed.

Lemma capture_appends f host req src :
  source_of host (payload_of req) = Ok src ->
  f <> SHEET_FAIL_LOG -> f <> ROCKETOUR_LOG ->
  exists ts1 ts2,
    appended f (trace host req) = appended f (capture_events ts1 ts2 src req).
Proof.
  intros Hsrc Hs Hr.
  destruct (trace_split host req src Hsrc) as (ts1 & ts2 & h1 & q1 & h2 & q2 & E).
  exists ts1, ts2. unfold appended. rewrite E, !flat_map_app.
  rewrite (flat_map_outside relay_class (started f) _ (relay_no_start f Hs)
             (relay_only (payload_of req) host h1 q1)).
  rewrite (flat_map_outside replicator_class (started f) _
             (replicator_no_start f Hr)
             (replicator_only (payload_of req) src (ip_of req) host h2 q2)).
  destruct f; try congruence; cbn [flat_map started ack logfile_eqb app];
    rewrite app_nil_r; reflexivity.
Qed.

(** Once line 59 has given the source, one submission hands exactly
    one entry to [fs.appendFile] for the general log. *)
Lemma general_log_when_resolved host req src :
  source_of host (payload_of req) = Ok src ->
  exists ts,
    appended GENERAL_LOG (trace host req) = [general_entry ts src req].
Proof.
  intros Hsrc.
  destruct (capture_appends GENERAL_LOG host req src Hsrc
              GENERAL_not_SHEET GENERAL_not_ROCKETOUR) as (ts1 & ts2 & E).
  exists ts1. rewrite E. unfold capture_events, appended.
  cbn [flat_map started logfile_eqb].
  destruct (src =? "whatsapp"); reflexivity.
Qed.

(** X16. A submission that gets past line 59 hands exactly one entry
    to [fs.appendFile] for the general log; its [payload] field is the
    payload of the request as received ([req.body] itself whenever a
    body was parsed), its [source] field the source of line 59; and the
    writes to the general log that finish during the submission are the
    first of these. *)
Theorem general_log_gets_one_entry_past_line_59
    (host : Host) (req : Request) (src : string) :
  source_of host (payload_of req) = Ok src ->
  exists ts,
    appended GENERAL_LOG (trace host req) = [general_entry ts src req] /\
    prop "payload" (general_entry ts src req) = payload_of req /\
    prop "source" (general_entry ts src req) = VStr src /\
    payload_of req = (if truthy (req_body req) then req_body req else VObj []) /\
    exists later,
      completed GENERAL_LOG (trace host req) ++ later = [general_entry ts src req].
Proof.
  intros Hsrc.
  destruct (general_log_when_resolved host req src Hsrc) as (ts & E).
  exists ts. split; [exact E|]. do 3 (split; [reflexivity|]).
  rewrite <- E. apply completed_prefix_of_appended.
Qed.

Lemma general_log_witness :
  source_of (sample_host all_well) (payload_of whatsapp_request)
    = Ok "whatsapp" /\
  exists ts,
    appended GENERAL_LOG (trace (sample_host all_well) whatsapp_request)
    = [general_entry ts "whatsapp" whatsapp_request].
Proof.
  assert (Hs : source_of (sample_host all_well) (payload_of whatsapp_request)
               = Ok "whatsapp") by reflexivity.
  split; [exact Hs|].
  destruct (general_log_gets_one_entry_past_line_59 _ _ _ Hs) as (ts & E & _).
  exists ts. exact E.
Defined.

(** C5 fails on the code. A submission whose [source] is an object
    with a key [toString] of its own (the JSON body
    [{"source": {"toString": 1}, ...}]) makes line 59 throw a
    [TypeError] before line 63 is reached: on every host the handler
    ends with that exception, nothing at all happens, and the general log
    gets no entry for the submission. *)
Theorem general_log_misses_unprintable_source (host : Host) :
  truthy (req_body unprintable_source_request) = true /\
  (exists e, res (handle host unprintable_source_request) = Throw e /\
             err_name e = "TypeError") /\
  trace host unprintable_source_request = [] /\
  appended GENERAL_LOG (trace host unprintable_source_request) = [].
Proof.
  assert (Hs : source_of host (payload_of unprintable_source_request)
               = Throw (not_a_function source_callee)) by reflexivity.
  destruct (handle_unresolved host _ _ Hs) as [Ht Hr].
  split; [reflexivity|]. split; [|split; [exact Ht|]].
  - exists (not_a_function source_callee). split; [exact Hr | reflexivity].
  - rewrite Ht. reflexivity.
Qed.










Lemma before_relay_app l rest :
  filter is_relay_call l = [] ->
  forall e, is_relay_call e = true ->
  before_relay (l ++ e :: rest) = l.
Proof.
  intros Hl e He. induction l as [|x l IH]; simpl in *.
  - rewrite He. reflexivity.
  - destruct (is_relay_call x); [discriminate|]. f_equal. apply IH, Hl.
Qed.

(** When the relay call is made, only lines 63-65 have run: the capture
    writes were started, and none of them has finished. *)
Lemma nothing_written_before_relay host req :
  forall f, completed f (before_relay (trace host req)) = [].
Proof.
  intros f.
  destruct (source_of host (payload_of req)) as [src|e] eqn:Hsrc.
  - destruct (trace_split host req src Hsrc)
      as (ts1 & ts2 & h1 & q1 & h2 & q2 & E).
    destruct (relay_shape (payload_of req) host h1 q1) as (rest & R & _).
    rewrite E, R, <- app_comm_cons, before_relay_app;
      unfold capture_events;
      destruct (src =? "whatsapp"); reflexivity.
  - rewrite (proj1 (handle_unresolved host req e Hsrc)). reflexivity.
Qed.

(** C2, as the specification states it, fails: [fs.appendFile] returns
    before the write is done, and the handler goes on to call [fetch]. *)
Lemma capture_write_pending_at_relay :
  completed GENERAL_LOG (before_relay (trace (sample_host all_well) form_request))
    = [] /\
  capture_completes_before_relay (trace (sample_host all_well) form_request)
    = false /\
  ~ (forall host req, capture_completes_before_relay (trace host req) = true).
Proof.
  split; [apply nothing_written_before_relay|].
  split; [vm_compute; reflexivity|].
  intros H. specialize (H (sample_host all_well) form_request).
  vm_compute in H. discriminate H.
Qed.

(** C2, amended. In every submission that gets past line 59 the stages
    come in this order: the appends to the capture logs are issued
    (one, or two for WhatsApp), then the one relay call is made, then
    the one answer is sent, then the background task runs. *)
Theorem stages_in_order (host : Host) (req : Request) (src : string) :
  source_of host (payload_of req) = Ok src ->
  exists n,
    stages (trace host req) =
    (if src =? "whatsapp" then [0; 0]%nat else [0%nat])
    ++ [1; 2]%nat ++ repeat 3%nat (S n).
Proof.
  intros Hsrc.
  destruct (trace_split host req src Hsrc) as (ts1 & ts2 & h1 & q1 & h2 & q2 & E).
  destruct (relay_shape (payload_of req) host h1 q1) as (rest & R & Hrest).
  destruct (replicator_starts (payload_of req) src (ip_of req) host h2 q2)
    as (rest' & R').
  pose proof (replicator_only (payload_of req) src (ip_of req) host h2 q2) as Hrep.
  rewrite R' in Hrep. inversion Hrep as [|? ? _ Hrep']; subst.
  destruct (stages_replicator _ Hrep') as (n & Hn).
  exists n. rewrite E, R, R'.
  rewrite stages_app, stages_capture. f_equal.
  change (ECall (OFetch (SHEET_URL host) (payload_of req)) :: rest)
    with ([ECall (OFetch (SHEET_URL host) (payload_of req))] ++ rest).
  change (EConsole msg_started :: ECall OExecutablePath :: rest')
    with ([EConsole msg_started] ++ ECall OExecutablePath :: rest').
  rewrite !stages_app, (stages_relay_rest _ Hrest), Hn. reflexivity.
Qed.

Lemma stages_in_order_witness :
  source_of (sample_host all_well) (payload_of form_request) = Ok "form" /\
  exists n,
    stages (trace (sample_host all_well) form_request) =
    [0%nat] ++ [1; 2]%nat ++ repeat 3%nat (S n).
Proof.
  assert (Hs : source_of (sample_host all_well) (payload_of form_request)
               = Ok "form") by reflexivity.
  split; [exact Hs|].
  apply (stages_in_order (sample_host all_well) form_request "form" Hs).
Defined.

(* ================================================================== *)
(** * Runs as a relation, and their inversion *)
(* ================================================================== *)

Lemma run_yields {A} (m : M A) host h q :
  yields m host (res (m host h q)) (out (m host h q)).
Proof. exists h, q. auto. Qed.

Lemma yields_ret_inv {A} (a : A) host r l :
  yields (ret a) host r l -> r = Ok a /\ l = [].
Proof. intros (h & q & <- & <-). auto. Qed.

Lemma yields_eval_inv {A} (r0 : Result A) host r l :
  yields (eval r0) host r l -> r = r0 /\ l = [].
Proof. intros (h & q & <- & <-). auto. Qed.

Lemma yields_emit_inv e host r l :
  yields (emit e) host r l -> r = Ok tt /\ l = [e].
Proof. intros (h & q & <- & <-). auto. Qed.

Lemma yields_logConsole_inv msg host r l :
  yields (logConsole msg) host r l -> r = Ok tt /\ l = [EConsole msg].
Proof. apply yields_emit_inv. Qed.

Lemma yields_appendJsonLine_inv f o host r l :
  yields (appendJsonLine f o) host r l ->
  exists ts, r = Ok tt /\ l = [EAppendFile f (VObj (spread [("ts", VStr ts)] o))].
Proof. intros (h & q & <- & <-). exists (clock host h). auto. Qed.

Lemma yields_await_inv op host r l :
  yields (await op) host r l ->
  exists L, Forall (fun e => loop_event e = true) L /\
            l = ECall op :: L ++ [ESettled op r].
Proof.
  intros (h & q & <- & <-). rewrite out_await. eexists. split; [|reflexivity].
  apply event_loop_only. repeat split.
Qed.

Lemma yields_bind_inv {A B} (m : M A) (k : A -> M B) host r l :
  yields (bind m k) host r l ->
  exists r1 l1,
    yields m host r1 l1 /\
    ((exists a l2, r1 = Ok a /\ yields (k a) host r l2 /\ l = l1 ++ l2) \/
     (exists e, r1 = Throw e /\ r = Throw e /\ l = l1)).
Proof.
  intros (h & q & <- & <-). rewrite res_bind, out_bind.
  exists (res (m host h q)), (out (m host h q)). split; [apply run_yields|].
  destruct (res (m host h q)) as [a|e].
  - left. exists a. eexists. split; [reflexivity|]. split; [apply run_yields|reflexivity].
  - right. exists e. rewrite app_nil_r. auto.
Qed.

Lemma yields_try_inv {A} (m : M A) (handler : JsError -> M A) host r l :
  yields (try_catch m handler) host r l ->
  exists r1 l1,
    yields m host r1 l1 /\
    ((exists a, r1 = Ok a /\ r = Ok a /\ l = l1) \/
     (exists e l2, r1 = Throw e /\ yields (handler e) host r l2 /\ l = l1 ++ l2)).
Proof.
  intros (h & q & <- & <-). rewrite res_try, out_try.
  exists (res (m host h q)), (out (m host h q)). split; [apply run_yields|].
  destruct (res (m host h q)) as [a|e].
  - left. exists a. rewrite app_nil_r. auto.
  - right. exists e. eexists. split; [reflexivity|]. split; [apply run_yields|reflexivity].
Qed.

Lemma yields_with_host_inv {A} (k : Host -> M A) host r l :
  yields (with_host k) host r l -> yields (k host) host r l.
Proof. intros (h & q & <- & <-). exists h, q. split; reflexivity. Qed.

(** Use up the equations an inversion leaves behind. *)
Ltac settle_results :=
  repeat match goal with
  | H : Ok _ = Throw _ |- _ => discriminate H
  | H : Throw _ = Ok _ |- _ => discriminate H
  | H : Ok _ = Ok _ |- _ => injection H as H
  | H : Throw _ = Throw _ |- _ => injection H as H
  | H : ?x = _ |- _ => is_var x; subst x
  | H : _ = ?x |- _ => is_var x; subst x
  end.

(** Invert every run in the context down to the primitives. *)
Ltac run_inv :=
  repeat match goal with
  | H : yields (bind _ _) _ _ _ |- _ =>
      let r1 := fresh "r" in let l1 := fresh "l" in
      let H1 := fresh "Hrun" in let H2 := fresh "Hrun" in
      let a := fresh "a" in let l2 := fresh "l" in let e := fresh "err" in
      apply yields_bind_inv in H;
      destruct H as (r1 & l1 & H1 & [(a & l2 & ? & H2 & ?) | (e & ? & ? & ?)]);
      settle_results
  | H : yields (try_catch _ _) _ _ _ |- _ =>
      let r1 := fresh "r" in let l1 := fresh "l" in
      let H1 := fresh "Hrun" in let H2 := fresh "Hrun" in
      let a := fresh "a" in let l2 := fresh "l" in let e := fresh "err" in
      apply yields_try_inv in H;
      destruct H as (r1 & l1 & H1 & [(a & ? & ? & ?) | (e & l2 & ? & H2 & ?)]);
      settle_results
  | H : yields (with_host _) _ _ _ |- _ => apply yields_with_host_inv in H
  | H : yields (ret _) _ _ _ |- _ =>
      apply yields_ret_inv in H; destruct H as [? ?]; settle_results
  | H : yields (eval _) _ _ _ |- _ =>
      apply yields_eval_inv in H; destruct H as [? ?]; settle_results
  | H : yields (logConsole _) _ _ _ |- _ =>
      apply yields_logConsole_inv in H; destruct H as [? ?]; settle_results
  | H : yields (emit _) _ _ _ |- _ =>
      apply yields_emit_inv in H; destruct H as [? ?]; settle_results
  | H : yields (appendJsonLine _ _) _ _ _ |- _ =>
      let ts := fresh "ts" in
      apply yields_appendJsonLine_inv in H; destruct H as (ts & ? & ?);
      settle_results
  | H : yields (await _) _ _ _ |- _ =>
      let L := fresh "L" in let HL := fresh "HL" in
      apply yields_await_inv in H; destruct H as (L & HL & ?);
      settle_results
  | H : yields (if ?b then _ else _) _ _ _ |- _ =>
      let T := fresh "T" in destruct b eqn:T
  end.

(* ================================================================== *)
(** * Focusing on one step of a run *)
(* ================================================================== *)

Section Sandwich.
Context {B : Type}.
Variables Cmiss C : Event -> bool.
Hypothesis C_sub : forall e, C e = true -> Cmiss e = true.
Variable focus : M B.

Lemma weaken_class l :
  Forall (fun e => C e = true) l -> Forall (fun e => Cmiss e = true) l.
Proof. apply Forall_impl. exact C_sub. Qed.

Lemma sw_here : sandwiched Cmiss C focus focus.
Proof.
  intros host h q. right.
  exists [], (res (focus host h q)), (out (focus host h q)), [].
  rewrite app_nil_r. repeat split; auto using run_yields.
Qed.

Lemma sw_bind_l {A A'} (m : M A) (k : A -> M A') :
  sandwiched Cmiss C focus m -> (forall a, emits_only C (k a)) ->
  sandwiched Cmiss C focus (bind m k).
Proof.
  intros Hm Hk host h q. rewrite out_bind.
  match goal with |- context [out (m host h q) ++ ?t] => set (tail := t) end.
  assert (Htail : Forall (fun e => C e = true) tail)
    by (subst tail; destruct (res (m host h q)); [apply Hk | constructor]).
  clearbody tail.
  destruct (Hm host h q) as [Hall | (pre & r & l & post & E & Hy & Hpre & Hpost)].
  - left. apply Forall_app; auto using weaken_class.
  - right. exists pre, r, l, (post ++ tail). rewrite E, <- !app_assoc.
    split; [reflexivity|]. split; [exact Hy|]. split; [exact Hpre|].
    apply Forall_app; split; assumption.
Qed.

Lemma sw_bind_r {A A'} (m : M A) (k : A -> M A') :
  emits_only C m -> (forall a, sandwiched Cmiss C focus (k a)) ->
  sandwiched Cmiss C focus (bind m k).
Proof.
  intros Hm Hk host h q. rewrite out_bind.
  destruct (res (m host h q)) as [a|e].
  - destruct (Hk a host (h ++ out (m host h q)) (pend (m host h q)))
      as [Hall | (pre & r & l & post & E & Hy & Hpre & Hpost)].
    + left. apply Forall_app; split; [apply weaken_class, Hm | exact Hall].
    + right. exists (out (m host h q) ++ pre), r, l, post.
      rewrite E, <- !app_assoc.
      split; [reflexivity|]. split; [exact Hy|]. split; [|exact Hpost].
      apply Forall_app; split; [apply Hm | exact Hpre].
  - left. rewrite app_nil_r. apply weaken_class, Hm.
Qed.

Lemma sw_try {A} (m : M A) (handler : JsError -> M A) :
  sandwiched Cmiss C focus m -> (forall e, emits_only C (handler e)) ->
  sandwiched Cmiss C focus (try_catch m handler).
Proof.
  intros Hm Hh host h q. rewrite out_try.
  match goal with |- context [out (m host h q) ++ ?t] => set (tail := t) end.
  assert (Htail : Forall (fun e => C e = true) tail)
    by (subst tail; destruct (res (m host h q)); [constructor | apply Hh]).
  clearbody tail.
  destruct (Hm host h q) as [Hall | (pre & r & l & post & E & Hy & Hpre & Hpost)].
  - left. apply Forall_app; auto using weaken_class.
  - right. exists pre, r, l, (post ++ tail). rewrite E, <- !app_assoc.
    split; [reflexivity|]. split; [exact Hy|]. split; [exact Hpre|].
    apply Forall_app; split; assumption.
Qed.

(** A [try] around a sequence is the first step, then the [try]
    around the rest. *)
Lemma sw_try_bind {A A'} (m : M A) (k : A -> M A') (handler : JsError -> M A') :
  emits_only C m ->
  (forall a, sandwiched Cmiss C focus (try_catch (k a) handler)) ->
  (forall e, emits_only Cmiss (handler e)) ->
  sandwiched Cmiss C focus (try_catch (bind m k) handler).
Proof.
  intros Hm Hk Hh host h q.
  rewrite out_try, res_bind, out_bind.
  destruct (res (m host h q)) as [a|e] eqn:Em.
  - specialize (Hk a host (h ++ out (m host h q)) (pend (m host h q))).
    rewrite out_try in Hk.
    assert (Eq :
      (out (m host h q) ++
       out (k a host (h ++ out (m host h q)) (pend (m host h q)))) ++
      match res (k a host (h ++ out (m host h q)) (pend (m host h q))) with
      | Ok _ => []
      | Throw e =>
          out (handler e host
                 (h ++ out (m host h q) ++
                  out (k a host (h ++ out (m host h q)) (pend (m host h q))))
                 (pend (bind m k host h q)))
      end =
      out (m host h q) ++
      (out (k a host (h ++ out (m host h q)) (pend (m host h q))) ++
       match res (k a host (h ++ out (m host h q)) (pend (m host h q))) with
       | Ok _ => []
       | Throw e =>
           out (handler e host
                  ((h ++ out (m host h q)) ++
                   out (k a host (h ++ out (m host h q)) (pend (m host h q))))
                  (pend (k a host (h ++ out (m host h q)) (pend (m host h q)))))
       end)).
    { rewrite pend_bind, Em, <- !app_assoc. reflexivity. }
    rewrite Eq.
    destruct Hk as [Hall | (pre & r & l & post & E & Hy & Hpre & Hpost)].
    + left. apply Forall_app; split; [apply weaken_class, Hm | exact Hall].
    + right. exists (out (m host h q) ++ pre), r, l, post.
      rewrite E, <- !app_assoc.
      split; [reflexivity|]. split; [exact Hy|]. split; [|exact Hpost].
      apply Forall_app; split; [apply Hm | exact Hpre].
  - left. rewrite app_nil_r.
    apply Forall_app; split; [apply weaken_class, Hm | apply Hh].
Qed.

Lemma sw_with_host {A} (k : Host -> M A) :
  (forall host, sandwiched Cmiss C focus (k host)) ->
  sandwiched Cmiss C focus (with_host k).
Proof. intros Hk host h q. apply Hk. Qed.
End Sandwich.

(* ================================================================== *)
(** * What the outcome log and the page see *)
(* ================================================================== *)

Lemma before_submit_sub e : before_submit e = true -> never_submitting e = true.
Proof. destruct e; simpl; auto. Qed.

Lemma relay_before_submit payload :
  emits_only before_submit (relay_to_sheet payload).
Proof. unfold relay_to_sheet. only_auto. Qed.

Lemma open_before_submit : emits_only before_submit open_partner_form.
Proof. unfold open_partner_form. only_auto. Qed.

Lemma fill_before_submit data src :
  emits_only before_submit (fill_known_fields data src).
Proof. unfold fill_known_fields, fill_if_present. only_auto. Qed.

Lemma on_error_never_submitting data e :
  emits_only never_submitting (on_background_error data e).
Proof. unfold on_background_error. only_auto. Qed.

(** A submission either fails before line 137, or runs [last_steps]
    after events that all come before the submit stage. *)
Lemma submission_reaches_last_steps req :
  sandwiched never_submitting before_submit
    (last_steps (payload_of req)) (formnew_submit req).
Proof.
  unfold formnew_submit. apply sw_with_host; intros host.
  apply sw_bind_r; [exact before_submit_sub | only_auto | intros src].
  unfold submit_with_source.
  apply sw_bind_r; [exact before_submit_sub | only_auto | intros _].
  apply sw_bind_r; [exact before_submit_sub | only_auto | intros _].
  apply sw_bind_r;
    [exact before_submit_sub | apply relay_before_submit | intros _].
  apply sw_bind_r; [exact before_submit_sub | only_auto | intros _].
  unfold backgroundRocketourSubmission.
  apply sw_bind_r; [exact before_submit_sub | only_auto | intros _].
  apply sw_try_bind;
    [exact before_submit_sub | apply open_before_submit | intros _
    | apply on_error_never_submitting].
  apply sw_try_bind;
    [exact before_submit_sub | apply fill_before_submit | intros _
    | apply on_error_never_submitting].
  apply sw_here.
Qed.

Lemma in_flat_map_one {X} (g : Event -> list X) e x tr :
  In e tr -> g e = [x] -> In x (flat_map g tr).
Proof.
  intros Hin Hg. apply in_flat_map. exists e. split; [exact Hin|].
  rewrite Hg. left. reflexivity.
Qed.

(** Observers that the events before the submit stage do not concern. *)
Lemma blind_outcome e : before_submit e = true -> outcome_label e = [].
Proof. revert e. by_cases_on_event. Qed.
Lemma blind_error e : before_submit e = true -> error_label e = [].
Proof. revert e. by_cases_on_event. Qed.
Lemma blind_close_failure e : before_submit e = true -> close_failure e = [].
Proof. revert e. by_cases_on_event. Qed.
Lemma blind_probe e : before_submit e = true -> field_probe sel_submit e = [].
Proof.
  revert e. by_cases_on_event.
  match goal with |- context [if ?b then _ else _] => destruct b end;
    [discriminate | destruct r; reflexivity].
Qed.
Lemma blind_wait e : before_submit e = true -> indicator_wait e = [].
Proof. revert e. by_cases_on_event. Qed.
Lemma blind_click e : before_submit e = true -> click e = [].
Proof. revert e. by_cases_on_event. Qed.
Lemma blind_close_call e : before_submit e = true -> close_call e = [].
Proof. revert e. by_cases_on_event. Qed.
Lemma blind_entry e : before_submit e = true -> rocketour_entry e = [].
Proof. revert e. by_cases_on_event. Qed.

Create HintDb blind.
#[local] Hint Resolve blind_outcome blind_error blind_close_failure blind_probe
  blind_wait blind_click blind_close_call blind_entry : blind.

Lemma loop_in_class (C : Event -> bool) L :
  allows_loop C ->
  Forall (fun e => loop_event e = true) L ->
  Forall (fun e => C e = true) L.
Proof.
  intros (Hw & Hf & Hc). apply Forall_impl.
  intros []; simpl; auto; discriminate.
Qed.

Lemma flat_map_step {X} (g : Event -> list X) e l :
  flat_map g (e :: l) = g e ++ flat_map g l.
Proof. reflexivity. Qed.

Lemma flat_map_none {X} (g : Event -> list X) : flat_map g [] = [].
Proof. reflexivity. Qed.

(** Compute what observers blind to the class [C] see of a trace made
    of explicit events, event-loop stretches and stretches inside [C]. *)
Ltac see_past C :=
  unfold rocketour_entries, outcome_labels, error_labels, close_failures,
    clicks, close_calls, typed_into;
  repeat match goal with
         | HL : Forall (fun e => loop_event e = true) _ |- _ =>
             apply (loop_in_class C) in HL; [| repeat split]
         end;
  repeat first [ rewrite flat_map_app | rewrite flat_map_step
               | rewrite flat_map_none ];
  repeat match goal with
         | HX : Forall (fun e => C e = true) ?X
           |- context [flat_map ?g ?X] =>
             rewrite (flat_map_outside C g X) by eauto with blind
         end;
  cbn.

(* ================================================================== *)
(** * The submit stage of the background task *)
(* ================================================================== *)

(** C7. When the probe of line 137 finds no submit control, the first
    entry the task appends to the outcome log is the error
    [no_submit_button_found] with the payload, no [status] entry
    (success or inconclusive) is appended, and the control is never
    clicked. *)
Theorem missing_submit_button_is_logged_as_error
    (host : Host) (req : Request) (v : value) :
  In (ESettled (OQuery sel_submit) (Ok v)) (trace host req) ->
  truthy v = false ->
  (exists ts rest,
     rocketour_entries (trace host req) =
     VObj [("ts", VStr ts); ("error", VStr "no_submit_button_found");
           ("payload", payload_of req)] :: rest) /\
  outcome_labels (trace host req) = [] /\
  clicks (trace host req) = [].
Proof.
  intros Hin Hv.
  assert (Hp : In v (flat_map (field_probe sel_submit) (trace host req)))
    by (apply (in_flat_map_one _ _ _ _ Hin); reflexivity).
  unfold trace, handle in *.
  destruct (submission_reaches_last_steps req host [] [])
    as [Hmiss | (pre & r & l & post & E & Hy & Hpre & Hpost)].
  - exfalso. rewrite Forall_forall in Hmiss. specialize (Hmiss _ Hin).
    discriminate Hmiss.
  - rewrite E in *. clear E Hin.
    unfold last_steps, submit_and_detect, on_background_error in Hy.
    run_inv; revert Hp; see_past before_submit;
      intros Hp; repeat destruct Hp as [Hp|Hp]; try contradiction;
      subst; try congruence; repeat split; eauto.
Qed.

Lemma missing_submit_button_witness :
  In (ESettled (OQuery sel_submit) (Ok VNull))
     (trace (sample_host no_submit_control) form_request) /\
  truthy VNull = false /\
  (exists ts rest,
     rocketour_entries (trace (sample_host no_submit_control) form_request) =
     VObj [("ts", VStr ts); ("error", VStr "no_submit_button_found");
           ("payload", payload_of form_request)] :: rest) /\
  outcome_labels (trace (sample_host no_submit_control) form_request) = [] /\
  clicks (trace (sample_host no_submit_control) form_request) = [].
Proof.
  assert (Hin : In (ESettled (OQuery sel_submit) (Ok VNull))
                   (trace (sample_host no_submit_control) form_request))
    by find_in_trace.
  split; [exact Hin|]. split; [reflexivity|].
  apply (missing_submit_button_is_logged_as_error
           (sample_host no_submit_control) form_request VNull Hin).
  reflexivity.
Defined.

(** C8, as the specification states it, fails on the label: the entry
    written when the green box does not show up has status
    [submitted_no_green_box]. *)
Lemma inconclusive_label_is_not_submitted_no_indicator :
  outcome_labels (trace (sample_host no_green_box) form_request)
    = ["submitted_no_green_box"] /\
  ~ (forall host req err,
       In (ESettled (OWaitForSelector sel_success 5000) (Throw err))
          (trace host req) ->
       outcome_labels (trace host req) = ["submitted_no_indicator"]).
Proof.
  split; [vm_compute; reflexivity|].
  intros H.
  specialize (H (sample_host no_green_box) form_request
                (mkError "TimeoutError" "Waiting for selector failed: 5000ms exceeded")).
  assert (E : outcome_labels (trace (sample_host no_green_box) form_request)
              = ["submitted_no_indicator"]) by (apply H; find_in_trace).
  vm_compute in E. discriminate E.
Qed.

(** C8, amended. When the wait for the green box fails after the click,
    the task appends one [status] entry, [submitted_no_green_box], with
    the payload; it goes on to [browser.close()]; and the outcome log
    gets an [error] entry only if that [close] itself fails. *)
Theorem missing_green_box_is_logged_as_status
    (host : Host) (req : Request) (err : JsError) :
  In (ESettled (OWaitForSelector sel_success 5000) (Throw err)) (trace host req) ->
  (exists ts rest,
     rocketour_entries (trace host req) =
     VObj [("ts", VStr ts); ("status", VStr "submitted_no_green_box");
           ("payload", payload_of req)] :: rest) /\
  outcome_labels (trace host req) = ["submitted_no_green_box"] /\
  close_calls (trace host req) = [tt] /\
  error_labels (trace host req) = close_failures (trace host req).
Proof.
  intros Hin.
  assert (Hp : In false (flat_map indicator_wait (trace host req)))
    by (apply (in_flat_map_one _ _ _ _ Hin); reflexivity).
  unfold trace, handle in *.
  destruct (submission_reaches_last_steps req host [] [])
    as [Hmiss | (pre & r & l & post & E & Hy & Hpre & Hpost)].
  - exfalso. rewrite Forall_forall in Hmiss. specialize (Hmiss _ Hin).
    discriminate Hmiss.
  - rewrite E in *. clear E Hin.
    unfold last_steps, submit_and_detect, on_background_error in Hy.
    run_inv; revert Hp; see_past before_submit;
      intros Hp; repeat destruct Hp as [Hp|Hp]; try contradiction;
      try discriminate; repeat split; eauto.
Qed.

Lemma missing_green_box_witness :
  In (ESettled (OWaitForSelector sel_success 5000)
        (Throw (mkError "TimeoutError" "Waiting for selector failed: 5000ms exceeded")))
     (trace (sample_host no_green_box) form_request) /\
  (exists ts rest,
     rocketour_entries (trace (sample_host no_green_box) form_request) =
     VObj [("ts", VStr ts); ("status", VStr "submitted_no_green_box");
           ("payload", payload_of form_request)] :: rest) /\
  outcome_labels (trace (sample_host no_green_box) form_request)
    = ["submitted_no_green_box"] /\
  close_calls (trace (sample_host no_green_box) form_request) = [tt] /\
  error_labels (trace (sample_host no_green_box) form_request)
    = close_failures (trace (sample_host no_green_box) form_request).
Proof.
  assert (Hin : In (ESettled (OWaitForSelector sel_success 5000)
                      (Throw (mkError "TimeoutError"
                                "Waiting for selector failed: 5000ms exceeded")))
                   (trace (sample_host no_green_box) form_request))
    by find_in_trace.
  split; [exact Hin|].
  apply (missing_green_box_is_logged_as_status
           (sample_host no_green_box) form_request _ Hin).
Defined.

(* ================================================================== *)
(** * Events that leave a field alone *)
(* ================================================================== *)

Lemma away_typed selector e :
  away_from selector e = true -> typed_text selector e = [].
Proof.
  destruct e as [| | | | |op|op r|]; try reflexivity;
    destruct op; try reflexivity; simpl.
  destruct (selector0 =? selector); [discriminate | reflexivity].
Qed.

Lemma away_probe selector e :
  away_from selector e = true -> field_probe selector e = [].
Proof.
  destruct e as [| | | | |op|op r|]; try reflexivity;
    destruct op; try reflexivity; simpl.
  destruct (selector0 =? selector); [discriminate | destruct r; reflexivity].
Qed.

#[local] Hint Resolve away_typed away_probe : blind.

(* ================================================================== *)
(** * Release of the browser *)
(* ================================================================== *)

Lemma res_await op host h q :
  res (await op host h q) =
  settle host ((h ++ [ECall op]) ++ fst (event_loop host (h ++ [ECall op]) q)) op.
Proof. reflexivity. Qed.

(** When [page.goto] rejects, lines 95-105 throw. *)
Lemma open_throws_when_goto_rejects host e :
  (forall h, settle host h (OGoto (ROCKETOUR_URL host) 30000) = Throw e) ->
  forall h q, exists e', res (open_partner_form host h q) = Throw e'.
Proof.
  intros Hgoto h q. unfold open_partner_form.
  rewrite res_with_host, res_bind.
  destruct (res (await OExecutablePath host h q)) as [?|e1]; [|eauto].
  rewrite res_bind.
  destruct (res (await OLaunch host _ _)) as [?|e2]; [|eauto].
  rewrite res_bind.
  destruct (res (await ONewPage host _ _)) as [?|e3]; [|eauto].
  rewrite res_bind, res_await, Hgoto. eauto.
Qed.

Lemma never_submitting_no_close l :
  Forall (fun e => never_submitting e = true) l -> close_calls l = [].
Proof.
  apply flat_map_outside. intros e; revert e. by_cases_on_event.
Qed.

Lemma relay_never_submitting payload :
  emits_only never_submitting (relay_to_sheet payload).
Proof. unfold relay_to_sheet. only_auto. Qed.

(** On a host where the navigation to the partner form always rejects,
    no submission ever reaches [browser.close()]. *)
Lemma close_never_called_when_goto_rejects host req e :
  (forall h, settle host h (OGoto (ROCKETOUR_URL host) 30000) = Throw e) ->
  close_calls (trace host req) = [].
Proof.
  intros Hgoto.
  destruct (source_of host (payload_of req)) as [src|e0] eqn:Hsrc;
    [|rewrite (proj1 (handle_unresolved host req e0 Hsrc)); reflexivity].
  destruct (trace_split host req src Hsrc) as (ts1 & ts2 & h1 & q1 & h2 & q2 & E).
  rewrite E. unfold close_calls. rewrite !flat_map_app.
  fold (close_calls (out (relay_to_sheet (payload_of req) host h1 q1))).
  rewrite (never_submitting_no_close _
             (relay_never_submitting (payload_of req) host h1 q1)).
  assert (Hcap : flat_map close_call (capture_events ts1 ts2 src req) = []).
  { unfold capture_events.
    destruct (src =? "whatsapp"); reflexivity. }
  rewrite Hcap. cbn [app flat_map close_call ack].
  unfold backgroundRocketourSubmission.
  rewrite out_bind, res_logConsole, out_logConsole, out_try, res_bind, out_bind.
  match goal with
  | |- context [res (open_partner_form host ?hh ?qq)] =>
      destruct (open_throws_when_goto_rejects host e Hgoto hh qq) as (e' & Hopen);
      rewrite Hopen, app_nil_r, !flat_map_app;
      fold (close_calls (out (open_partner_form host hh qq)));
      rewrite (never_submitting_no_close _
                 (Forall_impl _ before_submit_sub (open_before_submit host hh qq)))
  end.
  match goal with
  | |- context [out (on_background_error ?d ?x host ?hh ?qq)] =>
      fold (close_calls (out (on_background_error d x host hh qq)));
      rewrite (never_submitting_no_close _
                 (on_error_never_submitting d x host hh qq))
  end.
  reflexivity.
Qed.

(** The exits without an exception do release the browser: after the
    wait for the green box, whether it was seen or not, and when no
    submit control was found, [browser.close()] is called once. *)
Lemma browser_closed_after_wait host req r :
  In (ESettled (OWaitForSelector sel_success 5000) r) (trace host req) ->
  close_calls (trace host req) = [tt].
Proof.
  intros Hin.
  assert (Hp : exists b, In b (flat_map indicator_wait (trace host req))).
  { destruct r as [v|err]; eexists;
      apply (in_flat_map_one _ _ _ _ Hin); reflexivity. }
  destruct Hp as (b & Hp).
  unfold trace, handle in *.
  destruct (submission_reaches_last_steps req host [] [])
    as [Hmiss | (pre & r' & l & post & E & Hy & Hpre & Hpost)].
  - exfalso. rewrite Forall_forall in Hmiss. specialize (Hmiss _ Hin).
    discriminate Hmiss.
  - rewrite E in *. clear E Hin.
    unfold last_steps, submit_and_detect, on_background_error in Hy.
    run_inv; revert Hp; see_past before_submit;
      intros Hp; repeat destruct Hp as [Hp|Hp]; try contradiction;
      reflexivity.
Qed.

Lemma browser_closed_when_no_submit_control host req v :
  In (ESettled (OQuery sel_submit) (Ok v)) (trace host req) ->
  truthy v = false ->
  close_calls (trace host req) = [tt].
Proof.
  intros Hin Hv.
  assert (Hp : In v (flat_map (field_probe sel_submit) (trace host req)))
    by (apply (in_flat_map_one _ _ _ _ Hin); reflexivity).
  unfold trace, handle in *.
  destruct (submission_reaches_last_steps req host [] [])
    as [Hmiss | (pre & r & l & post & E & Hy & Hpre & Hpost)].
  - exfalso. rewrite Forall_forall in Hmiss. specialize (Hmiss _ Hin).
    discriminate Hmiss.
  - rewrite E in *. clear E Hin.
    unfold last_steps, submit_and_detect, on_background_error in Hy.
    run_inv; revert Hp; see_past before_submit;
      intros Hp; repeat destruct Hp as [Hp|Hp]; try contradiction;
      subst; try congruence; reflexivity.
Qed.

(** C3 fails on the code. With a partner form that does not load in
    time, the browser is launched, the [catch] of line 157 logs the
    error, and [browser.close()] is never called: the only call of it,
    on line 156, sits inside the [try]. *)
Theorem browser_left_open_when_navigation_fails :
  In (ESettled OLaunch (Ok VUndef))
     (trace (sample_host navigation_timeout) form_request) /\
  close_calls (trace (sample_host navigation_timeout) form_request) = [] /\
  error_labels (trace (sample_host navigation_timeout) form_request) =
    ["Navigation timeout of 30000 ms exceeded"].
Proof.
  split; [find_in_trace|]. split; [|vm_compute; reflexivity].
  apply (close_never_called_when_goto_rejects _ _
           (mkError "TimeoutError" "Navigation timeout of 30000 ms exceeded")).
  reflexivity.
Qed.

(* ================================================================== *)
(** * The notes *)
(* ================================================================== *)

(** Step through the conversions of [compose_notes] that both sides
    of an equation share. *)
Ltac same_step :=
  match goal with
  | |- and_then ?a _ = and_then ?a _ =>
      destruct a as [?|?]; cbn [and_then]; [|reflexivity]
  end.

(** C9. Two records that differ only in [tours], one giving a list of
    names and the other the same names joined by a comma and a space
    (what line 127 itself makes of the list), get the same notes. *)
Theorem notes_agree_for_list_and_joined_string
    (host : Host) (p1 p2 : value) (names : list string)
    (joined src : string) :
  prop "tours" p1 = VArr (map VStr names) ->
  join host ", " (map VStr names) = Ok joined ->
  prop "tours" p2 = VStr joined ->
  (forall k, k <> "tours" -> prop k p1 = prop k p2) ->
  compose_notes host p1 src = compose_notes host p2 src.
Proof.
  intros H1 Hj H2 Hk. unfold compose_notes. cbv zeta.
  rewrite H1, H2.
  rewrite (Hk "npart"), (Hk "participants"), (Hk "tour_details")
    by discriminate.
  do 2 same_step.
  rewrite Hj. change (ToString host (VStr joined)) with (Ok joined).
  cbn [truthy and_then].
  destruct (joined =? "") eqn:E; cbn [negb and_then].
  - apply String.eqb_eq in E. rewrite E.
    rewrite !filter_app. cbn [filter truthy String.eqb negb].
    rewrite app_nil_r. reflexivity.
  - reflexivity.
Qed.

Lemma notes_agree_witness :
  prop "tours" tours_as_list = VArr [VStr "Colosseum"; VStr "Vatican"] /\
  join (sample_host all_well) ", " [VStr "Colosseum"; VStr "Vatican"]
    = Ok "Colosseum, Vatican" /\
  prop "tours" tours_as_string = VStr "Colosseum, Vatican" /\
  compose_notes (sample_host all_well) tours_as_list "form" =
  compose_notes (sample_host all_well) tours_as_string "form".
Proof.
  split; [reflexivity|]. split; [reflexivity|]. split; [reflexivity|].
  apply (notes_agree_for_list_and_joined_string (sample_host all_well)
           tours_as_list tours_as_string ["Colosseum"; "Vatican"]
           "Colosseum, Vatican" "form").
  - reflexivity.
  - reflexivity.
  - reflexivity.
  - intros k Hk. apply String.eqb_neq in Hk. simpl.
    destruct (k =? "name"); [reflexivity|].
    destruct (k =? "npart"); [reflexivity|].
    rewrite Hk. reflexivity.
Defined.

(* ================================================================== *)
(** * The exits of the background task *)
(* ================================================================== *)

Lemma yields_only {A} (C : Event -> bool) (m : M A) host r l :
  emits_only C m -> yields m host r l -> Forall (fun e => C e = true) l.
Proof. intros Hm (h & q & _ & <-). apply Hm. Qed.

(** A [try] around a sequence, run: the first step fails and the
    [catch] runs, or the first step succeeds and the [try] goes on
    around the rest. *)
Lemma yields_try_bind_inv {A A'} (m : M A) (k : A -> M A')
    (handler : JsError -> M A') host r l :
  yields (try_catch (bind m k) handler) host r l ->
  (exists e l1 l2,
     yields m host (Throw e) l1 /\ yields (handler e) host r l2 /\
     l = l1 ++ l2) \/
  (exists a l1 l2,
     yields m host (Ok a) l1 /\ yields (try_catch (k a) handler) host r l2 /\
     l = l1 ++ l2).
Proof.
  intros (h & q & <- & <-).
  rewrite res_try, out_try, res_bind, out_bind.
  destruct (res (m host h q)) as [a|e] eqn:Em.
  - right. exists a, (out (m host h q)).
    exists (out (try_catch (k a) handler host (h ++ out (m host h q))
                   (pend (m host h q)))).
    split; [exists h, q; auto|]. split.
    + exists (h ++ out (m host h q)), (pend (m host h q)).
      split; [|reflexivity]. rewrite res_try.
      destruct (res (k a host (h ++ out (m host h q)) (pend (m host h q))));
        [reflexivity|].
      rewrite pend_bind, Em, app_assoc. reflexivity.
    + rewrite out_try, <- app_assoc. f_equal. f_equal.
      destruct (res (k a host (h ++ out (m host h q)) (pend (m host h q))));
        [reflexivity|].
      rewrite pend_bind, Em, app_assoc. reflexivity.
  - left. exists e, (out (m host h q)).
    exists (out (handler e host (h ++ out (m host h q)) (pend (m host h q)))).
    split; [exists h, q; auto|]. split.
    + exists (h ++ out (m host h q)), (pend (m host h q)).
      rewrite pend_bind, Em, !app_nil_r. auto.
    + rewrite pend_bind, Em, !app_nil_r. reflexivity.
Qed.

(** ** Rejections are let through by everything but a [try] *)

Lemma accounts_ret {A} (a : A) : accounts (ret a).
Proof. intros host r l H. apply yields_ret_inv in H. destruct H as [-> ->]. reflexivity. Qed.

Lemma accounts_eval {A} (r0 : Result A) : accounts (eval r0).
Proof.
  intros host r l H. apply yields_eval_inv in H. destruct H as [-> ->].
  destruct r0; auto.
Qed.

Lemma accounts_await op : accounts (await op).
Proof.
  intros host r l H. apply yields_await_inv in H. destruct H as (L & HL & ->).
  unfold rejections. rewrite flat_map_step, flat_map_app.
  rewrite (flat_map_outside loop_event rejection L)
    by (assumption || (intros []; simpl; auto; discriminate)).
  destruct r; [reflexivity | left; reflexivity].
Qed.

Lemma accounts_bind {A B} (m : M A) (k : A -> M B) :
  accounts m -> (forall a, accounts (k a)) -> accounts (bind m k).
Proof.
  intros Hm Hk host r l H. apply yields_bind_inv in H.
  destruct H as (r1 & l1 & H1 & [(a & l2 & -> & H2 & ->) | (e & -> & -> & ->)]).
  - unfold rejections. rewrite flat_map_app.
    fold (rejections l1). fold (rejections l2).
    rewrite (Hm _ _ _ H1). apply (Hk a _ _ _ H2).
  - apply (Hm _ _ _ H1).
Qed.

Lemma accounts_with_host {A} (k : Host -> M A) :
  (forall host, accounts (k host)) -> accounts (with_host k).
Proof. intros Hk host r l H. apply yields_with_host_inv in H. apply (Hk host _ _ _ H). Qed.

Lemma accounts_if {A} (b : bool) (m1 m2 : M A) :
  accounts m1 -> accounts m2 -> accounts (if b then m1 else m2).
Proof. destruct b; auto. Qed.

Ltac accounts_auto :=
  repeat (intros;
          lazymatch goal with
          | |- accounts (ret _) => apply accounts_ret
          | |- accounts (eval _) => apply accounts_eval
          | |- accounts (await _) => apply accounts_await
          | |- accounts (bind _ _) => apply accounts_bind
          | |- accounts (with_host _) => apply accounts_with_host
          | |- accounts (if _ then _ else _) => apply accounts_if
          end).

Lemma open_accounts : accounts open_partner_form.
Proof. unfold open_partner_form. accounts_auto. Qed.

Lemma fill_accounts data src : accounts (fill_known_fields data src).
Proof. unfold fill_known_fields, fill_if_present. accounts_auto. Qed.

Lemma open_replicator_class : emits_only replicator_class open_partner_form.
Proof. unfold open_partner_form. only_auto. Qed.

Lemma fill_replicator_class data src :
  emits_only replicator_class (fill_known_fields data src).
Proof. unfold fill_known_fields, fill_if_present. only_auto. Qed.

(** ** The fields are probed one after the other *)

Lemma loop_no_probe L :
  Forall (fun e => loop_event e = true) L -> probes L = [].
Proof. apply flat_map_outside. intros []; simpl; auto; discriminate. Qed.

Lemma fill_if_present_probes selector text host r l :
  yields (fill_if_present selector text) host r l -> probes l = [selector].
Proof.
  intros H. unfold fill_if_present in H.
  run_inv; unfold probes;
    repeat first [ rewrite flat_map_app | rewrite flat_map_step
                 | rewrite flat_map_none ];
    repeat match goal with
           | HL : Forall _ ?L |- context [flat_map probe_call ?L] =>
               fold (probes L); rewrite (loop_no_probe L HL)
           end;
    reflexivity.
Qed.

Lemma open_probes host a l :
  yields open_partner_form host (Ok a) l -> probes l = [].
Proof.
  intros H. unfold open_partner_form in H.
  run_inv; unfold probes;
    repeat first [ rewrite flat_map_app | rewrite flat_map_step
                 | rewrite flat_map_none ];
    repeat match goal with
           | HL : Forall _ ?L |- context [flat_map probe_call ?L] =>
               fold (probes L); rewrite (loop_no_probe L HL)
           end;
    reflexivity.
Qed.

Lemma fill_probes data src host a l :
  yields (fill_known_fields data src) host (Ok a) l -> probes l = known_fields.
Proof.
  intros H. unfold fill_known_fields in H.
  run_inv.
  unfold probes. rewrite !flat_map_app.
  repeat match goal with
         | Hf : yields (fill_if_present ?s ?t) _ _ ?l0 |- _ =>
             fold (probes l0) in *;
             rewrite (fill_if_present_probes s t _ _ _ Hf); clear Hf
         end.
  reflexivity.
Qed.

(** ** The three ways the task can go *)

(** After the start message, the task either fails in a step before
    the submit stage, and the [catch] runs on that step's error (the
    error of the call that rejected, or that of a conversion when no
    call did); or it gets through these steps without a rejection and
    runs the submit stage. *)
Lemma replicator_cases data src ip host r l :
  yields (backgroundRocketourSubmission data src ip) host r l ->
  exists pre rest,
    l = EConsole msg_started :: pre ++ rest /\
    Forall (fun e => before_submit e = true) pre /\
    Forall (fun e => replicator_class e = true) pre /\
    ((exists e, (rejections pre = [e] \/ rejections pre = []) /\
                yields (on_background_error data e) host r rest) \/
     (rejections pre = [] /\ probes pre = known_fields /\
      yields (last_steps data) host r rest)).
Proof.
  intros H. unfold backgroundRocketourSubmission in H.
  apply yields_bind_inv in H.
  destruct H as (r1 & l1 & H1 & [(a & l2 & -> & H2 & ->) | (e & -> & _ & _)]);
    apply yields_logConsole_inv in H1; destruct H1 as [H1 ->];
    [clear H1 | discriminate H1].
  apply yields_try_bind_inv in H2.
  destruct H2 as [(e & lo & le & Ho & He & ->) | (a1 & lo & l3 & Ho & H3 & ->)].
  - exists lo, le. split; [reflexivity|].
    split; [apply (yields_only _ _ _ _ _ open_before_submit Ho)|].
    split; [apply (yields_only _ _ _ _ _ open_replicator_class Ho)|].
    left. exists e. split; [apply (open_accounts _ _ _ Ho) | exact He].
  - pose proof (open_accounts _ _ _ Ho) as Hro. cbv beta iota in Hro.
    apply yields_try_bind_inv in H3.
    destruct H3 as [(e & lf & le & Hf & He & ->) | (a2 & lf & l4 & Hf & H4 & ->)].
    + exists (lo ++ lf), le. rewrite <- app_assoc. split; [reflexivity|].
      split; [apply Forall_app; split;
              [apply (yields_only _ _ _ _ _ open_before_submit Ho)
              |apply (yields_only _ _ _ _ _ (fill_before_submit data src) Hf)]|].
      split; [apply Forall_app; split;
              [apply (yields_only _ _ _ _ _ open_replicator_class Ho)
              |apply (yields_only _ _ _ _ _ (fill_replicator_class data src) Hf)]|].
      left. exists e. split; [|exact He].
      unfold rejections. rewrite flat_map_app.
      fold (rejections lo). fold (rejections lf).
      rewrite Hro. apply (fill_accounts data src _ _ _ Hf).
    + exists (lo ++ lf), l4. rewrite <- app_assoc. split; [reflexivity|].
      split; [apply Forall_app; split;
              [apply (yields_only _ _ _ _ _ open_before_submit Ho)
              |apply (yields_only _ _ _ _ _ (fill_before_submit data src) Hf)]|].
      split; [apply Forall_app; split;
              [apply (yields_only _ _ _ _ _ open_replicator_class Ho)
              |apply (yields_only _ _ _ _ _ (fill_replicator_class data src) Hf)]|].
      right. split; [|split; [|exact H4]].
      * unfold rejections. rewrite flat_map_app.
        fold (rejections lo). fold (rejections lf).
        rewrite Hro. apply (fill_accounts data src _ _ _ Hf).
      * unfold probes. rewrite flat_map_app.
        fold (probes lo). fold (probes lf).
        rewrite (open_probes _ _ _ Ho), (fill_probes _ _ _ _ _ Hf).
        reflexivity.
Qed.

(** ** The whole trace, by cases *)

Lemma relay_outside_browser e : relay_class e = true -> outside_browser e = true.
Proof. revert e. by_cases_on_event. Qed.

Lemma capture_outside_browser ts1 ts2 src req :
  Forall (fun e => outside_browser e = true) (capture_events ts1 ts2 src req).
Proof.
  unfold capture_events.
  destruct (src =? "whatsapp"); repeat constructor.
Qed.

(** A submission that gets past line 59 is the handler's own events,
    then the steps of the task before the submit stage, then one of the
    endings of [replicator_cases]. *)
Lemma trace_cases_resolved host req src :
  source_of host (payload_of req) = Ok src ->
  exists head pre rest r,
    trace host req = head ++ pre ++ rest /\
    Forall (fun e => outside_browser e = true) head /\
    Forall (fun e => before_submit e = true) pre /\
    Forall (fun e => replicator_class e = true) pre /\
    ((exists e, (rejections pre = [e] \/ rejections pre = []) /\
                yields (on_background_error (payload_of req) e) host r rest) \/
     (rejections pre = [] /\ probes pre = known_fields /\
      yields (last_steps (payload_of req)) host r rest)).
Proof.
  intros Hsrc.
  destruct (trace_split host req src Hsrc) as (ts1 & ts2 & h1 & q1 & h2 & q2 & E).
  destruct (replicator_cases _ _ _ _ _ _
              (run_yields (backgroundRocketourSubmission (payload_of req)
                             src (ip_of req))
                          host h2 q2))
    as (pre & rest & E' & Hb & Hc & Hcases).
  exists (capture_events ts1 ts2 src req ++
          out (relay_to_sheet (payload_of req) host h1 q1) ++
          [ack; EConsole msg_started]), pre, rest.
  eexists. split; [|split; [|split; [exact Hb | split; [exact Hc | exact Hcases]]]].
  - rewrite E, E', <- !app_assoc. reflexivity.
  - apply Forall_app; split; [apply capture_outside_browser|].
    apply Forall_app; split; [|repeat constructor].
    apply (Forall_impl _ relay_outside_browser),
      (relay_only (payload_of req) host h1 q1).
Qed.

Lemma trace_cases host req :
  trace host req = [] \/
  exists head pre rest r,
    trace host req = head ++ pre ++ rest /\
    Forall (fun e => outside_browser e = true) head /\
    Forall (fun e => before_submit e = true) pre /\
    Forall (fun e => replicator_class e = true) pre /\
    ((exists e, (rejections pre = [e] \/ rejections pre = []) /\
                yields (on_background_error (payload_of req) e) host r rest) \/
     (rejections pre = [] /\ probes pre = known_fields /\
      yields (last_steps (payload_of req)) host r rest)).
Proof.
  destruct (source_of host (payload_of req)) as [src|e0] eqn:Hsrc.
  - right. apply (trace_cases_resolved host req src Hsrc).
  - left. apply (handle_unresolved host req e0 Hsrc).
Qed.

(** What the observers of the browser see of the handler's own events
    and of the steps before the submit stage. *)
Lemma head_entry e : outside_browser e = true -> rocketour_entry e = [].
Proof. revert e. by_cases_on_event. Qed.
Lemma head_click e : outside_browser e = true -> click e = [].
Proof. revert e. by_cases_on_event. Qed.
Lemma head_close_call e : outside_browser e = true -> close_call e = [].
Proof. revert e. by_cases_on_event. Qed.
Lemma head_close_failure e : outside_browser e = true -> close_failure e = [].
Proof. revert e. by_cases_on_event. Qed.
Lemma head_outcome e : outside_browser e = true -> outcome_label e = [].
Proof. revert e. by_cases_on_event. Qed.
Lemma head_error e : outside_browser e = true -> error_label e = [].
Proof. revert e. by_cases_on_event. Qed.
Lemma head_wait e : outside_browser e = true -> indicator_wait e = [].
Proof. revert e. by_cases_on_event. Qed.
Lemma head_probe_call e : outside_browser e = true -> probe_call e = [].
Proof. revert e. by_cases_on_event. Qed.
Lemma head_field_probe s e : outside_browser e = true -> field_probe s e = [].
Proof. revert e. by_cases_on_event. Qed.
Lemma head_early_rejection e : outside_browser e = true -> early_rejection e = [].
Proof. revert e. by_cases_on_event; destruct r; reflexivity. Qed.

Lemma pre_early_rejection e :
  replicator_class e = true -> before_submit e = true ->
  early_rejection e = rejection e.
Proof.
  destruct e as [| | | | |op|op r|]; try reflexivity.
  simpl. intros -> H. destruct r; [reflexivity|].
  simpl. rewrite H. reflexivity.
Qed.

Lemma pre_early_rejections pre :
  Forall (fun e => replicator_class e = true) pre ->
  Forall (fun e => before_submit e = true) pre ->
  early_rejections pre = rejections pre.
Proof.
  intros Hc Hb. induction pre as [|e pre IH]; [reflexivity|].
  inversion Hc; inversion Hb; subst.
  unfold early_rejections, rejections in *. cbn [flat_map].
  rewrite pre_early_rejection, IH; auto.
Qed.

#[local] Hint Resolve head_entry head_click head_close_call head_close_failure
  head_outcome head_error head_wait head_probe_call head_field_probe
  head_early_rejection : blind.

(** Rewrite an observer over [head ++ pre ++ rest]. *)
Ltac see_head :=
  repeat match goal with
         | HX : Forall (fun e => outside_browser e = true) ?X
           |- context [flat_map ?g ?X] =>
             rewrite (flat_map_outside outside_browser g X) by eauto with blind
         end.

Ltac loop_blind :=
  let e := fresh "e" in
  intros e; destruct e; simpl; intros; try reflexivity; try discriminate.

(** Compute what the observers see of a trace made of explicit events,
    event-loop stretches and stretches confined to a class. *)
Ltac observe :=
  unfold rocketour_entries, outcome_labels, error_labels, close_failures,
    clicks, close_calls, typed_into, rejections, early_rejections, probes,
    launches, relay_calls, appended;
  repeat first [ rewrite flat_map_app | rewrite flat_map_step
               | rewrite flat_map_none ];
  repeat match goal with
         | HL : Forall (fun e => loop_event e = true) ?L
           |- context [flat_map ?g ?L] =>
             rewrite (flat_map_outside loop_event g L)
               by (first [exact HL | loop_blind])
         end;
  repeat match goal with
         | HX : Forall (fun e => ?C e = true) ?X
           |- context [flat_map ?g ?X] =>
             rewrite (flat_map_outside C g X) by eauto with blind
         end;
  cbn.

(** Split a goal about a whole trace into the endings of
    [replicator_cases], each with its events written out.  In a run
    that stopped on line 59 nothing happened, which settles a goal that
    starts from an event of the trace. *)
Ltac by_trace_cases host req :=
  let head := fresh "head" in let pre := fresh "pre" in
  let rest := fresh "rest" in let r := fresh "r" in
  let E := fresh "E" in let Hhead := fresh "Hhead" in
  let Hb := fresh "Hb" in let Hc := fresh "Hc" in
  let Hcases := fresh "Hcases" in
  let e' := fresh "err" in let Hrej := fresh "Hrej" in
  let Hprobes := fresh "Hprobes" in let Hy := fresh "Hy" in
  destruct (trace_cases host req)
    as [E | (head & pre & rest & r & E & Hhead & Hb & Hc & Hcases)];
  rewrite E in *; clear E;
  [ try solve [ observe; intros; contradiction ]
  | destruct Hcases as [(e' & [Hrej|Hrej] & Hy) | (Hrej & Hprobes & Hy)];
    [ unfold on_background_error in Hy
    | unfold on_background_error in Hy
    | unfold last_steps, submit_and_detect, on_background_error in Hy ];
    run_inv ].

(** The same for a run that is known to have got past line 59. *)
Ltac by_resolved_cases host req Hsrc :=
  let head := fresh "head" in let pre := fresh "pre" in
  let rest := fresh "rest" in let r := fresh "r" in
  let E := fresh "E" in let Hhead := fresh "Hhead" in
  let Hb := fresh "Hb" in let Hc := fresh "Hc" in
  let Hcases := fresh "Hcases" in
  let e' := fresh "err" in let Hrej := fresh "Hrej" in
  let Hprobes := fresh "Hprobes" in let Hy := fresh "Hy" in
  destruct (trace_cases_resolved host req _ Hsrc)
    as (head & pre & rest & r & E & Hhead & Hb & Hc & Hcases);
  rewrite E in *; clear E;
  destruct Hcases as [(e' & [Hrej|Hrej] & Hy) | (Hrej & Hprobes & Hy)];
  [ unfold on_background_error in Hy
  | unfold on_background_error in Hy
  | unfold last_steps, submit_and_detect, on_background_error in Hy ];
  run_inv.

(** X1. When a browser call made before the submit stage rejects
    (locating or launching the browser, opening a page, the navigation,
    a probe or a fill of a field), the outcome log gets exactly one
    entry, the error entry with that call's message and the payload;
    nothing is clicked and [browser.close()] is not called. *)
Theorem early_failure_is_logged_once
    (host : Host) (req : Request) (op : Op) (e : JsError) :
  browser_op op = true -> submit_stage_op op = false ->
  In (ESettled op (Throw e)) (trace host req) ->
  (exists ts,
     rocketour_entries (trace host req) =
     [error_entry ts (errText e) (payload_of req)]) /\
  clicks (trace host req) = [] /\
  close_calls (trace host req) = [].
Proof.
  intros Hop Hst Hin.
  assert (Hp : In e (early_rejections (trace host req))).
  { apply (in_flat_map_one _ _ _ _ Hin). simpl. rewrite Hop, Hst. reflexivity. }
  clear Hin. revert Hp.
  by_trace_cases host req;
    unfold early_rejections; rewrite !flat_map_app;
    fold (early_rejections pre);
    rewrite (pre_early_rejections pre Hc Hb), Hrej;
    observe;
    intros Hp; repeat destruct Hp as [Hp|Hp]; try contradiction;
    subst; repeat split; try reflexivity; eexists; reflexivity.
Qed.

Lemma early_failure_witness :
  In (ESettled OLaunch
        (Throw (mkError "Error" "Failed to launch the browser process")))
     (trace (sample_host launch_fails) form_request) /\
  (exists ts,
     rocketour_entries (trace (sample_host launch_fails) form_request) =
     [error_entry ts "Failed to launch the browser process"
        (payload_of form_request)]) /\
  clicks (trace (sample_host launch_fails) form_request) = [] /\
  close_calls (trace (sample_host launch_fails) form_request) = [].
Proof.
  assert (Hin : In (ESettled OLaunch
                      (Throw (mkError "Error" "Failed to launch the browser process")))
                   (trace (sample_host launch_fails) form_request))
    by find_in_trace.
  split; [exact Hin|].
  apply (early_failure_is_logged_once (sample_host launch_fails) form_request
           OLaunch _ eq_refl eq_refl Hin).
Defined.

(** X2. Every submission that gets past line 59 leaves one entry in
    the outcome log, and one more exactly when [browser.close()] itself
    fails; there are never more than two, and each carries the payload
    of the request. *)
Theorem outcome_log_gets_one_or_two_entries
    (host : Host) (req : Request) (src : string) :
  source_of host (payload_of req) = Ok src ->
  length (rocketour_entries (trace host req)) =
    S (length (close_failures (trace host req))) /\
  (length (close_failures (trace host req)) <= 1)%nat /\
  Forall (fun entry => prop "payload" entry = payload_of req)
         (rocketour_entries (trace host req)).
Proof.
  intros Hsrc.
  by_resolved_cases host req Hsrc; observe;
    repeat split; auto; repeat constructor.
Qed.

Lemma outcome_log_witness :
  source_of (sample_host all_well) (payload_of form_request) = Ok "form" /\
  length (rocketour_entries (trace (sample_host all_well) form_request)) =
    S (length (close_failures (trace (sample_host all_well) form_request))).
Proof.
  assert (Hs : source_of (sample_host all_well) (payload_of form_request)
               = Ok "form") by reflexivity.
  split; [exact Hs|].
  apply (outcome_log_gets_one_or_two_entries _ _ _ Hs).
Defined.

(** X3. When the green box shows up after the click, the task appends
    one [status] entry, [success_detected], with the payload, goes on
    to [browser.close()], and the outcome log gets an [error] entry
    only if that [close] fails. *)
Theorem green_box_is_logged_as_success
    (host : Host) (req : Request) (v : value) :
  In (ESettled (OWaitForSelector sel_success 5000) (Ok v)) (trace host req) ->
  (exists ts rest,
     rocketour_entries (trace host req) =
     status_entry ts "success_detected" (payload_of req) :: rest) /\
  outcome_labels (trace host req) = ["success_detected"] /\
  clicks (trace host req) = [tt] /\
  close_calls (trace host req) = [tt] /\
  error_labels (trace host req) = close_failures (trace host req).
Proof.
  intros Hin.
  assert (Hp : In true (flat_map indicator_wait (trace host req)))
    by (apply (in_flat_map_one _ _ _ _ Hin); reflexivity).
  clear Hin. revert Hp.
  by_trace_cases host req; observe;
    intros Hp; repeat destruct Hp as [Hp|Hp]; try contradiction;
    try discriminate; repeat split; try reflexivity;
    eexists; eexists; reflexivity.
Qed.

Lemma green_box_witness :
  In (ESettled (OWaitForSelector sel_success 5000) (Ok VUndef))
     (trace (sample_host all_well) form_request) /\
  (exists ts rest,
     rocketour_entries (trace (sample_host all_well) form_request) =
     status_entry ts "success_detected" (payload_of form_request) :: rest) /\
  outcome_labels (trace (sample_host all_well) form_request)
    = ["success_detected"] /\
  clicks (trace (sample_host all_well) form_request) = [tt] /\
  close_calls (trace (sample_host all_well) form_request) = [tt] /\
  error_labels (trace (sample_host all_well) form_request)
    = close_failures (trace (sample_host all_well) form_request).
Proof.
  assert (Hin : In (ESettled (OWaitForSelector sel_success 5000) (Ok VUndef))
                   (trace (sample_host all_well) form_request))
    by find_in_trace.
  split; [exact Hin|].
  apply (green_box_is_logged_as_success (sample_host all_well) form_request
           VUndef Hin).
Defined.

(** X4. An attempt that gets to the probe for the submit control has
    probed the five known fields before it, each once and in the order
    of the code: a field that is absent from the page is passed over
    and the next one is still tried. *)
Theorem all_fields_probed_before_submit (host : Host) (req : Request) :
  In (ECall (OQuery sel_submit)) (trace host req) ->
  probes (trace host req) = known_fields ++ [sel_submit].
Proof.
  intros Hin.
  assert (Hp : In sel_submit
                  (flat_map (fun e => match e with
                                      | ECall (OQuery s) =>
                                          if s =? sel_submit then [s] else []
                                      | _ => []
                                      end) (trace host req)))
    by (apply (in_flat_map_one _ _ _ _ Hin); reflexivity).
  clear Hin. revert Hp.
  assert (Hblind : forall e, before_submit e = true ->
            match e with
            | ECall (OQuery s) => if s =? sel_submit then [s] else []
            | _ => []
            end = []).
  { intros [| | | | |[]|[]|]; simpl; try reflexivity.
    destruct (selector =? sel_submit); [discriminate | reflexivity]. }
  assert (Hblind' : forall e, outside_browser e = true ->
            match e with
            | ECall (OQuery s) => if s =? sel_submit then [s] else []
            | _ => []
            end = []).
  { intros [| | | | |[]|[]|]; simpl; try reflexivity; discriminate. }
  by_trace_cases host req;
    unfold probes; rewrite !flat_map_app; fold (probes pre);
    try rewrite Hprobes;
    rewrite (flat_map_outside before_submit _ pre Hblind Hb);
    rewrite (flat_map_outside outside_browser _ head Hblind' Hhead);
    observe;
    intros Hp; repeat destruct Hp as [Hp|Hp]; try contradiction;
    reflexivity.
Qed.

Lemma all_fields_probed_witness :
  In (ECall (OQuery sel_submit)) (trace (sample_host no_submit_control) form_request) /\
  probes (trace (sample_host no_submit_control) form_request)
    = known_fields ++ [sel_submit].
Proof.
  assert (Hin : In (ECall (OQuery sel_submit))
                   (trace (sample_host no_submit_control) form_request))
    by find_in_trace.
  split; [exact Hin|].
  apply (all_fields_probed_before_submit _ _ Hin).
Defined.

Lemma field_probe_in selector v tr :
  In v (flat_map (field_probe selector) tr) ->
  In (ESettled (OQuery selector) (Ok v)) tr.
Proof.
  intros H. apply in_flat_map in H. destruct H as (e & He & Hv).
  destruct e as [| | | | | |op r|]; try contradiction.
  destruct op; try contradiction. destruct r as [w|]; try contradiction.
  simpl in Hv. destruct (selector0 =? selector) eqn:Es; [|contradiction].
  apply String.eqb_eq in Es. destruct Hv as [<-|[]]. subst. exact He.
Qed.

(** X5. The partner form is submitted at most once for a submission,
    and only through a submit control that the probe found; the browser
    is closed at most once. *)
Theorem at_most_one_click_and_close (host : Host) (req : Request) :
  (length (clicks (trace host req)) <= 1)%nat /\
  (length (close_calls (trace host req)) <= 1)%nat /\
  (clicks (trace host req) <> [] ->
   exists v, In (ESettled (OQuery sel_submit) (Ok v)) (trace host req) /\
             truthy v = true).
Proof.
  assert (H : (length (clicks (trace host req)) <= 1)%nat /\
              (length (close_calls (trace host req)) <= 1)%nat /\
              (clicks (trace host req) <> [] ->
               exists v, In v (flat_map (field_probe sel_submit) (trace host req))
                         /\ truthy v = true)).
  { by_trace_cases host req; observe;
      (split; [auto | split; [auto|]]);
      intros Hne; try congruence;
      eexists; (split; [left; reflexivity | assumption]). }
  destruct H as (H1 & H2 & H3). split; [exact H1|]. split; [exact H2|].
  intros Hc. destruct (H3 Hc) as (v & Hv & Ht).
  exists v. split; [apply field_probe_in, Hv | exact Ht].
Qed.

Lemma at_most_one_click_witness :
  clicks (trace (sample_host all_well) form_request) <> [] /\
  exists v, In (ESettled (OQuery sel_submit) (Ok v))
               (trace (sample_host all_well) form_request) /\
            truthy v = true.
Proof.
  assert (Hc : clicks (trace (sample_host all_well) form_request) <> [])
    by (vm_compute; discriminate).
  split; [exact Hc|].
  apply (proj2 (proj2 (at_most_one_click_and_close
                         (sample_host all_well) form_request)) Hc).
Defined.

(** X6. The only exception that escapes the handler is that of line
    59, and then nothing has happened: no log entry, no relay call, no
    answer.  Once line 59 has given the source, a failure of the relay,
    of reading its response, of a browser step or of a conversion in the
    background task ends in a [catch]. *)
Theorem only_line_59_can_throw (host : Host) (req : Request) :
  match source_of host (payload_of req) with
  | Ok _ => res (handle host req) = Ok tt
  | Throw e => res (handle host req) = Throw e /\ trace host req = []
  end.
Proof.
  destruct (source_of host (payload_of req)) as [src|e] eqn:Hsrc.
  - rewrite (proj2 (handle_resolved host req src Hsrc)).
    apply total_unit, submission_total.
  - destruct (handle_unresolved host req e Hsrc). split; assumption.
Qed.

(* ================================================================== *)
(** * The spreadsheet relay *)
(* ================================================================== *)

Lemma replicator_outside_relay e :
  replicator_class e = true -> outside_relay e = true.
Proof. revert e. by_cases_on_event. Qed.

(** A submission is the capture, one run of the relay, and the rest,
    which is not the relay's business. *)
Lemma trace_relay_cases_resolved host req src :
  source_of host (payload_of req) = Ok src ->
  exists cap rl tail r,
    trace host req = cap ++ rl ++ tail /\
    Forall (fun e => outside_relay e = true) cap /\
    Forall (fun e => outside_relay e = true) tail /\
    yields (relay_to_sheet (payload_of req)) host r rl.
Proof.
  intros Hsrc.
  destruct (trace_split host req src Hsrc) as (ts1 & ts2 & h1 & q1 & h2 & q2 & E).
  exists (capture_events ts1 ts2 src req),
    (out (relay_to_sheet (payload_of req) host h1 q1)).
  eexists. eexists. split; [exact E|]. split; [|split; [|apply run_yields]].
  - unfold capture_events.
    destruct (src =? "whatsapp"); repeat constructor.
  - apply Forall_app; split; [repeat constructor|].
    apply (Forall_impl _ replicator_outside_relay), replicator_only.
Qed.

Lemma trace_relay_cases host req :
  trace host req = [] \/
  exists cap rl tail r,
    trace host req = cap ++ rl ++ tail /\
    Forall (fun e => outside_relay e = true) cap /\
    Forall (fun e => outside_relay e = true) tail /\
    yields (relay_to_sheet (payload_of req)) host r rl.
Proof.
  destruct (source_of host (payload_of req)) as [src|e0] eqn:Hsrc.
  - right. apply (trace_relay_cases_resolved host req src Hsrc).
  - left. apply (handle_unresolved host req e0 Hsrc).
Qed.

Lemma outside_relay_started e :
  outside_relay e = true -> started SHEET_FAIL_LOG e = [].
Proof. revert e. by_cases_on_event. Qed.
Lemma outside_relay_call e : outside_relay e = true -> relay_call e = [].
Proof. revert e. by_cases_on_event. Qed.
Lemma outside_relay_result e : outside_relay e = true -> relay_result e = [].
Proof. revert e. by_cases_on_event. Qed.
Lemma outside_relay_text e : outside_relay e = true -> text_result e = [].
Proof. revert e. by_cases_on_event. Qed.

#[local] Hint Resolve outside_relay_started outside_relay_call
  outside_relay_result outside_relay_text : blind.

Ltac by_relay_cases host req :=
  let cap := fresh "cap" in let rl := fresh "rl" in
  let tail := fresh "tail" in let r := fresh "r" in
  let E := fresh "E" in let Hcap := fresh "Hcap" in
  let Htail := fresh "Htail" in let Hy := fresh "Hy" in
  destruct (trace_relay_cases host req)
    as [E | (cap & rl & tail & r & E & Hcap & Htail & Hy)];
  rewrite E in *; clear E;
  [ try solve [ unfold response_text; observe; intros; contradiction ]
  | unfold relay_to_sheet in Hy;
    run_inv ].

(** X7. A submission that gets past line 59 makes exactly one call to
    the spreadsheet endpoint, with the payload as received for its
    body, whatever the endpoint answers: a failed relay is not tried
    again.  One that stops on line 59 makes none. *)
Theorem relay_is_called_once (host : Host) (req : Request) :
  relay_calls (trace host req) =
  match source_of host (payload_of req) with
  | Ok _ => [(SHEET_URL host, payload_of req)]
  | Throw _ => []
  end.
Proof.
  destruct (source_of host (payload_of req)) as [src|e] eqn:Hsrc.
  - destruct (trace_relay_cases_resolved host req src Hsrc)
      as (cap & rl & tail & r & E & Hcap & Htail & Hy).
    rewrite E. unfold relay_to_sheet in Hy. run_inv; observe; reflexivity.
  - rewrite (proj1 (handle_unresolved host req e Hsrc)). reflexivity.
Qed.

(** X8. When the call to the spreadsheet endpoint rejects, the relay
    failure log gets exactly one entry, with the message of the error
    and the payload. *)
Theorem relay_rejection_is_logged
    (host : Host) (req : Request) (url : string) (body : value) (e : JsError) :
  In (ESettled (OFetch url body) (Throw e)) (trace host req) ->
  exists ts,
    appended SHEET_FAIL_LOG (trace host req) =
    [VObj [("ts", VStr ts); ("error", VStr (errText e));
           ("payload", payload_of req)]].
Proof.
  intros Hin.
  assert (Hp : In (Throw e) (flat_map relay_result (trace host req)))
    by (apply (in_flat_map_one _ _ _ _ Hin); reflexivity).
  clear Hin. revert Hp.
  by_relay_cases host req; observe;
    intros Hp; repeat destruct Hp as [Hp|Hp]; try contradiction;
    try discriminate; injection Hp as <-; eexists; reflexivity.
Qed.

Lemma relay_rejection_witness :
  In (ESettled (OFetch (SHEET_URL (sample_host relay_down))
                       (payload_of form_request))
        (Throw (mkError "FetchError" "connect ECONNREFUSED")))
     (trace (sample_host relay_down) form_request) /\
  exists ts,
    appended SHEET_FAIL_LOG (trace (sample_host relay_down) form_request) =
    [VObj [("ts", VStr ts); ("error", VStr "connect ECONNREFUSED");
           ("payload", payload_of form_request)]].
Proof.
  assert (Hin : In (ESettled (OFetch (SHEET_URL (sample_host relay_down))
                                     (payload_of form_request))
                      (Throw (mkError "FetchError" "connect ECONNREFUSED")))
                   (trace (sample_host relay_down) form_request))
    by find_in_trace.
  split; [exact Hin|].
  apply (relay_rejection_is_logged _ _ _ _ _ Hin).
Defined.

(** X9. When the endpoint answers with a status that is not OK, the
    relay failure log gets exactly one entry, with the status, the body
    text of the response (the empty string if it cannot be read) and
    the payload. *)
Theorem relay_bad_status_is_logged
    (host : Host) (req : Request) (url : string) (body resp : value) :
  In (ESettled (OFetch url body) (Ok resp)) (trace host req) ->
  truthy (prop "ok" resp) = false ->
  exists ts,
    appended SHEET_FAIL_LOG (trace host req) =
    [VObj [("ts", VStr ts); ("status", prop "status" resp);
           ("text", response_text (trace host req));
           ("payload", payload_of req)]].
Proof.
  intros Hin Hok.
  assert (Hp : In (Ok resp) (flat_map relay_result (trace host req)))
    by (apply (in_flat_map_one _ _ _ _ Hin); reflexivity).
  clear Hin. revert Hp.
  by_relay_cases host req; unfold response_text; observe;
    intros Hp; repeat destruct Hp as [Hp|Hp]; try contradiction;
    try discriminate; injection Hp as <-;
    try (rewrite Hok in *; discriminate);
    eexists; reflexivity.
Qed.

Lemma relay_bad_status_witness :
  In (ESettled (OFetch (SHEET_URL (sample_host relay_500))
                       (payload_of form_request))
        (Ok (VObj [("ok", VBool false); ("status", VNum 500)])))
     (trace (sample_host relay_500) form_request) /\
  exists ts,
    appended SHEET_FAIL_LOG (trace (sample_host relay_500) form_request) =
    [VObj [("ts", VStr ts); ("status", VNum 500);
           ("text", VStr "Internal Server Error");
           ("payload", payload_of form_request)]].
Proof.
  assert (Hin : In (ESettled (OFetch (SHEET_URL (sample_host relay_500))
                                     (payload_of form_request))
                      (Ok (VObj [("ok", VBool false); ("status", VNum 500)])))
                   (trace (sample_host relay_500) form_request))
    by find_in_trace.
  split; [exact Hin|].
  apply (relay_bad_status_is_logged _ _ _ _ _ Hin eq_refl).
Defined.

(** X10. When the endpoint answers OK, nothing is written to the relay
    failure log and the response body is not read. *)
Theorem relay_ok_logs_nothing
    (host : Host) (req : Request) (url : string) (body resp : value) :
  In (ESettled (OFetch url body) (Ok resp)) (trace host req) ->
  truthy (prop "ok" resp) = true ->
  appended SHEET_FAIL_LOG (trace host req) = [] /\
  flat_map text_result (trace host req) = [].
Proof.
  intros Hin Hok.
  assert (Hp : In (Ok resp) (flat_map relay_result (trace host req)))
    by (apply (in_flat_map_one _ _ _ _ Hin); reflexivity).
  clear Hin. revert Hp.
  by_relay_cases host req; observe;
    intros Hp; repeat destruct Hp as [Hp|Hp]; try contradiction;
    try discriminate; injection Hp as <-;
    try (rewrite Hok in *; discriminate);
    split; reflexivity.
Qed.

Lemma relay_ok_witness :
  In (ESettled (OFetch (SHEET_URL (sample_host all_well))
                       (payload_of form_request))
        (Ok (VObj [("ok", VBool true); ("status", VNum 200)])))
     (trace (sample_host all_well) form_request) /\
  appended SHEET_FAIL_LOG (trace (sample_host all_well) form_request) = [] /\
  flat_map text_result (trace (sample_host all_well) form_request) = [].
Proof.
  assert (Hin : In (ESettled (OFetch (SHEET_URL (sample_host all_well))
                                     (payload_of form_request))
                      (Ok (VObj [("ok", VBool true); ("status", VNum 200)])))
                   (trace (sample_host all_well) form_request))
    by find_in_trace.
  split; [exact Hin|].
  apply (relay_ok_logs_nothing _ _ _ _ _ Hin eq_refl).
Defined.

(** The call to the spreadsheet endpoint settles inside the relay. *)
Lemma relay_settles payload host h q :
  exists r,
    In (ESettled (OFetch (SHEET_URL host) payload) r)
       (out (relay_to_sheet payload host h q)).
Proof.
  unfold relay_to_sheet. rewrite out_with_host, out_try, out_bind, out_await.
  eexists.
  apply in_or_app; left. apply in_or_app; left.
  right. apply in_or_app; right. left. reflexivity.
Qed.

(** X11. The client is answered only when the relay is over: when the
    answer is sent, the call to the spreadsheet endpoint has settled
    before it, and nothing of the relay happens after it. A slow
    endpoint delays the answer. *)
Theorem answer_waits_for_relay (host : Host) (req : Request) :
  In ack (trace host req) ->
  exists pre post r,
    trace host req = pre ++ ack :: post /\
    In (ESettled (OFetch (SHEET_URL host) (payload_of req)) r) pre /\
    flat_map relay_result post = [] /\
    flat_map text_result post = [] /\
    appended SHEET_FAIL_LOG post = [].
Proof.
  intros Hack. destruct (happened_resolved host req _ Hack) as (src & Hsrc).
  destruct (trace_split host req src Hsrc) as (ts1 & ts2 & h1 & q1 & h2 & q2 & E).
  destruct (relay_settles (payload_of req) host h1 q1) as (r & Hr).
  exists (capture_events ts1 ts2 src req ++
          out (relay_to_sheet (payload_of req) host h1 q1)).
  eexists. exists r. split; [|split; [|]].
  - rewrite E, <- app_assoc. reflexivity.
  - apply in_or_app; right. exact Hr.
  - assert (Hpost : Forall (fun e => outside_relay e = true)
                      (out (backgroundRocketourSubmission (payload_of req)
                              src (ip_of req) host h2 q2))).
    { apply (Forall_impl _ replicator_outside_relay), replicator_only. }
    unfold appended.
    repeat split; apply (flat_map_outside outside_relay); auto with blind.
Qed.

Lemma answer_waits_witness :
  In ack (trace (sample_host relay_500) form_request) /\
  exists pre post r,
    trace (sample_host relay_500) form_request = pre ++ ack :: post /\
    In (ESettled (OFetch (SHEET_URL (sample_host relay_500))
                         (payload_of form_request)) r) pre.
Proof.
  assert (Hin : In ack (trace (sample_host relay_500) form_request))
    by find_in_trace.
  split; [exact Hin|].
  destruct (answer_waits_for_relay (sample_host relay_500) form_request Hin)
    as (pre & post & r & E & Hr & _).
  exists pre, post, r. split; assumption.
Defined.

(* ================================================================== *)
(** * Filling the known fields *)
(* ================================================================== *)

(** The task, stage by stage: opening the form, filling the fields,
    and either the [catch] or the submit stage. *)
Lemma replicator_stages data src ip host r l :
  yields (backgroundRocketourSubmission data src ip) host r l ->
  exists lo lf rest,
    l = EConsole msg_started :: lo ++ lf ++ rest /\
    ((exists e, yields open_partner_form host (Throw e) lo /\ lf = [] /\
                yields (on_background_error data e) host r rest) \/
     (exists a e, yields open_partner_form host (Ok a) lo /\
                  yields (fill_known_fields data src) host (Throw e) lf /\
                  yields (on_background_error data e) host r rest) \/
     (exists a a', yields open_partner_form host (Ok a) lo /\
                   yields (fill_known_fields data src) host (Ok a') lf /\
                   yields (last_steps data) host r rest)).
Proof.
  intros H. unfold backgroundRocketourSubmission in H.
  apply yields_bind_inv in H.
  destruct H as (r1 & l1 & H1 & [(a & l2 & -> & H2 & ->) | (e & -> & _ & _)]);
    apply yields_logConsole_inv in H1; destruct H1 as [H1 ->];
    [clear H1 | discriminate H1].
  apply yields_try_bind_inv in H2.
  destruct H2 as [(e & lo & le & Ho & He & ->) | (a1 & lo & l3 & Ho & H3 & ->)].
  - exists lo, [], le. split; [reflexivity|]. left. eauto.
  - apply yields_try_bind_inv in H3.
    destruct H3 as [(e & lf & le & Hf & He & ->) | (a2 & lf & l4 & Hf & H4 & ->)].
    + exists lo, lf, le. split; [reflexivity|]. right. left. eauto.
    + exists lo, lf, l4. split; [reflexivity|]. right. right. eauto.
Qed.

Lemma trace_stages host req src :
  source_of host (payload_of req) = Ok src ->
  exists head lo lf rest r,
    trace host req = head ++ lo ++ lf ++ rest /\
    Forall (fun e => outside_browser e = true) head /\
    ((exists e, yields open_partner_form host (Throw e) lo /\ lf = [] /\
                yields (on_background_error (payload_of req) e) host r rest) \/
     (exists a e, yields open_partner_form host (Ok a) lo /\
                  yields (fill_known_fields (payload_of req) src)
                         host (Throw e) lf /\
                  yields (on_background_error (payload_of req) e) host r rest) \/
     (exists a a', yields open_partner_form host (Ok a) lo /\
                   yields (fill_known_fields (payload_of req) src)
                          host (Ok a') lf /\
                   yields (last_steps (payload_of req)) host r rest)).
Proof.
  intros Hsrc.
  destruct (trace_split host req src Hsrc) as (ts1 & ts2 & h1 & q1 & h2 & q2 & E).
  destruct (replicator_stages _ _ _ _ _ _
              (run_yields (backgroundRocketourSubmission (payload_of req)
                             src (ip_of req))
                          host h2 q2))
    as (lo & lf & rest & E' & Hcases).
  exists (capture_events ts1 ts2 src req ++
          out (relay_to_sheet (payload_of req) host h1 q1) ++
          [ack; EConsole msg_started]), lo, lf, rest.
  eexists. split; [|split; [|exact Hcases]].
  - rewrite E, E', <- !app_assoc. reflexivity.
  - apply Forall_app; split; [apply capture_outside_browser|].
    apply Forall_app; split; [|repeat constructor].
    apply (Forall_impl _ relay_outside_browser),
      (relay_only (payload_of req) host h1 q1).
Qed.

Lemma head_typed s e : outside_browser e = true -> typed_text s e = [].
Proof. revert e. by_cases_on_event. Qed.

#[local] Hint Resolve head_typed : blind.

(** One probe and its fill, seen from its own field. *)
Lemma fill_one s t host r l :
  yields (fill_if_present s t) host r l ->
  (flat_map (field_probe s) l = [] /\ typed_into s l = []) \/
  (exists v, flat_map (field_probe s) l = [v] /\
             typed_into s l = if truthy v then typed_of t else []).
Proof.
  intros H. unfold fill_if_present in H.
  run_inv; observe; rewrite ?String.eqb_refl; cbn;
    first [ left; split; reflexivity
          | right; eexists; split; [reflexivity|];
            match goal with T : truthy _ = _ |- _ => rewrite T end;
            reflexivity ].
Qed.

(** One probe and its fill, seen from another field. *)
Lemma fill_other s t s' host r l :
  (s =? s') = false ->
  yields (fill_if_present s t) host r l ->
  flat_map (field_probe s') l = [] /\ typed_into s' l = [].
Proof.
  intros Hs H.
  assert (Hl : Forall (fun e => away_from s' e = true) l).
  { apply (yields_only (away_from s') (fill_if_present s t) host r l); [|exact H].
    unfold fill_if_present.
    apply only_bind;
      [apply only_await; [repeat split | simpl; rewrite Hs; reflexivity
                         | intros; simpl; rewrite Hs; reflexivity]
      | intros; apply only_if; [|apply only_ret]].
    apply only_bind; [apply only_eval | intros].
    apply only_bind;
      [apply only_await; [repeat split | simpl; rewrite Hs; reflexivity
                         | intros; simpl; rewrite Hs; reflexivity]
      | intros; apply only_ret]. }
  split; [|unfold typed_into]; apply (flat_map_outside (away_from s'));
    auto using away_probe, away_typed.
Qed.

(** The five fills, seen from one of their fields. *)
Lemma fill_chain host data src r l sel text :
  yields (fill_known_fields data src) host r l ->
  In (sel, text) (field_texts host data src) ->
  (flat_map (field_probe sel) l = [] /\ typed_into sel l = []) \/
  (exists v, flat_map (field_probe sel) l = [v] /\
             typed_into sel l = if truthy v then typed_of text else []).
Proof.
  intros H Hin. unfold fill_known_fields in H.
  apply yields_with_host_inv in H.
  unfold field_texts in Hin.
  repeat destruct Hin as [Hin|Hin]; try contradiction;
    injection Hin as <- <-;
    run_inv; unfold typed_into; rewrite ?flat_map_app;
    repeat match goal with
           | Hn : Ok _ = compose_notes _ _ _ |- _ => rewrite <- Hn; clear Hn
           | Hn : Throw _ = compose_notes _ _ _ |- _ => rewrite <- Hn; clear Hn
           end;
    match goal with
    | |- context [field_probe ?sel] =>
        repeat match goal with
        | Hf : yields (fill_if_present ?s ?t) _ ?r0 ?l0 |- _ =>
            first
              [ let Hp := fresh "Hp" in let Ht := fresh "Ht" in
                destruct (fill_other s t sel _ _ _ eq_refl Hf) as [Hp Ht];
                unfold typed_into in Ht; rewrite ?Hp, ?Ht; clear Hf Hp Ht
              | let Hp := fresh "Hp" in let Ht := fresh "Ht" in
                let w := fresh "w" in
                destruct (fill_one s t _ _ _ Hf)
                  as [[Hp Ht] | (w & Hp & Ht)];
                unfold typed_into in Ht; rewrite ?Hp, ?Ht; clear Hf Hp Ht ]
        end
    end;
    cbn [app flat_map]; rewrite ?app_nil_r;
    first [ left; split; reflexivity | right; eexists; split; reflexivity ].
Qed.

Lemma open_away sel : emits_only (away_from sel) open_partner_form.
Proof. unfold open_partner_form. only_auto. Qed.

Lemma on_error_away sel data e :
  emits_only (away_from sel) (on_background_error data e).
Proof. unfold on_background_error. only_auto. Qed.

Lemma last_steps_away sel data :
  (sel_submit =? sel) = false ->
  emits_only (away_from sel) (last_steps data).
Proof.
  intros Hs. unfold last_steps, submit_and_detect, on_background_error.
  repeat (intros; only_step);
    try solve [repeat split; intros; unfold away_from; rewrite ?Hs; reflexivity].
Qed.

Lemma away_sees_nothing sel l :
  Forall (fun e => away_from sel e = true) l ->
  flat_map (field_probe sel) l = [] /\ typed_into sel l = [].
Proof.
  intros Hl. split; [|unfold typed_into];
    apply (flat_map_outside (away_from sel)); auto using away_probe, away_typed.
Qed.

(** What a whole submission shows of one known field: its probe did
    not resolve and nothing was typed, or it resolved once and the text
    was typed exactly when the field was found and the text could be
    computed. *)
Lemma submission_typed host req src sel text :
  source_of host (payload_of req) = Ok src ->
  In (sel, text) (field_texts host (payload_of req) src) ->
  (sel_submit =? sel) = false ->
  (flat_map (field_probe sel) (trace host req) = [] /\
   typed_into sel (trace host req) = []) \/
  (exists v, flat_map (field_probe sel) (trace host req) = [v] /\
             typed_into sel (trace host req) =
             if truthy v then typed_of text else []).
Proof.
  intros Hsrc Hin Hs.
  destruct (trace_stages host req src Hsrc)
    as (head & lo & lf & rest & r & E & Hhead & Hcases).
  rewrite E. unfold typed_into. rewrite !flat_map_app.
  rewrite (flat_map_outside outside_browser (field_probe sel) head)
    by eauto with blind.
  rewrite (flat_map_outside outside_browser (typed_text sel) head)
    by eauto with blind.
  assert (Hopen : forall ro, yields open_partner_form host ro lo ->
            flat_map (field_probe sel) lo = [] /\
            flat_map (typed_text sel) lo = []).
  { intros ro Ho. apply away_sees_nothing.
    apply (yields_only _ _ _ _ _ (open_away sel) Ho). }
  assert (Herr : forall e, yields (on_background_error (payload_of req) e) host r rest ->
            flat_map (field_probe sel) rest = [] /\
            flat_map (typed_text sel) rest = []).
  { intros e He. apply away_sees_nothing.
    apply (yields_only _ _ _ _ _ (on_error_away sel _ e) He). }
  destruct Hcases as [(e & Ho & -> & He) | [(a & e & Ho & Hf & He) | (a & a' & Ho & Hf & Hl)]].
  - destruct (Hopen _ Ho) as [-> ->]. destruct (Herr _ He) as [-> ->].
    left. split; reflexivity.
  - destruct (Hopen _ Ho) as [-> ->]. destruct (Herr _ He) as [-> ->].
    cbn [app]. rewrite !app_nil_r.
    apply (fill_chain _ _ _ _ _ _ _ Hf Hin).
  - destruct (Hopen _ Ho) as [-> ->].
    destruct (away_sees_nothing sel rest
                (yields_only _ _ _ _ _ (last_steps_away sel _ Hs) Hl)) as [-> Ht].
    unfold typed_into in Ht. rewrite Ht.
    cbn [app]. rewrite !app_nil_r.
    apply (fill_chain _ _ _ _ _ _ _ Hf Hin).
Qed.

(** What was typed into a known field whose probe resolved. *)
Lemma typed_after_probe host req src sel text v :
  source_of host (payload_of req) = Ok src ->
  In (sel, text) (field_texts host (payload_of req) src) ->
  In (ESettled (OQuery sel) (Ok v)) (trace host req) ->
  typed_into sel (trace host req) = if truthy v then typed_of text else [].
Proof.
  intros Hsrc Hin Hev.
  assert (Hp : In v (flat_map (field_probe sel) (trace host req))).
  { apply (in_flat_map_one _ _ _ _ Hev). simpl. rewrite String.eqb_refl. reflexivity. }
  assert (Hs : (sel_submit =? sel) = false).
  { unfold field_texts in Hin.
    repeat destruct Hin as [Hin|Hin]; try contradiction;
      injection Hin as <- <-; reflexivity. }
  destruct (submission_typed host req src sel text Hsrc Hin Hs)
    as [[Hnone _] | (w & Hone & Ht)].
  - rewrite Hnone in Hp. contradiction.
  - rewrite Hone in Hp. destruct Hp as [<-|[]]. exact Ht.
Qed.

(** C10. When the probe finds the lead-name (lead-phone) field and the
    record has no name (phone), the task types the empty string into
    the field, once: the field is not skipped.  When the record has
    one, its text is typed, once, unless it cannot be converted to
    text (then [String] throws and the attempt ends in the [catch]).
    Only when the probe finds no such field does the task pass over
    it. *)
Theorem lead_field_is_typed_whenever_present
    (host : Host) (req : Request) (selector key : string) (v : value) :
  (selector = sel_leadName /\ key = "name") \/
  (selector = sel_leadPhone /\ key = "phone") ->
  In (ESettled (OQuery selector) (Ok v)) (trace host req) ->
  typed_into selector (trace host req) =
    if truthy v
    then (if truthy (prop key (payload_of req))
          then match ToString host (prop key (payload_of req)) with
               | Ok text => [text]
               | Throw _ => []
               end
          else [""])
    else [].
Proof.
  intros Hsel Hin.
  destruct (happened_resolved host req _ Hin) as (src & Hsrc).
  assert (Ht : typed_into selector (trace host req) =
               if truthy v
               then typed_of (lead_text host (prop key (payload_of req)))
               else []).
  { destruct Hsel as [[-> ->] | [-> ->]];
      apply (typed_after_probe host req src _ _ v Hsrc); try exact Hin;
      unfold field_texts; simpl; auto. }
  rewrite Ht. unfold lead_text, typed_of.
  destruct (truthy v); [|reflexivity].
  destruct (truthy (prop key (payload_of req))); reflexivity.
Qed.

Lemma lead_field_witness :
  In (ESettled (OQuery sel_leadName) (Ok element_handle))
     (trace (sample_host all_well) nameless_request) /\
  prop "name" (payload_of nameless_request) = VUndef /\
  typed_into sel_leadName (trace (sample_host all_well) nameless_request) = [""].
Proof.
  assert (Hin : In (ESettled (OQuery sel_leadName) (Ok element_handle))
                   (trace (sample_host all_well) nameless_request))
    by find_in_trace.
  split; [exact Hin|]. split; [reflexivity|].
  apply (lead_field_is_typed_whenever_present
           (sample_host all_well) nameless_request sel_leadName "name"
           element_handle (or_introl (conj eq_refl eq_refl)) Hin).
Defined.

(** X12. Each of the five known fields (affiliate, city, lead name,
    lead phone, notes) is typed into exactly once when its probe finds
    it, with the text of the code: the configured affiliate id, the
    fixed city, the name and phone as text, the composed notes.  When
    the probe finds nothing, nothing is typed into the field; nor is
    anything when the text cannot be computed, because a conversion
    throws. *)
Theorem known_field_is_typed_iff_present
    (host : Host) (req : Request) (src sel : string)
    (text : Result string) (v : value) :
  source_of host (payload_of req) = Ok src ->
  In (sel, text) (field_texts host (payload_of req) src) ->
  In (ESettled (OQuery sel) (Ok v)) (trace host req) ->
  typed_into sel (trace host req) =
    if truthy v
    then match text with Ok t => [t] | Throw _ => [] end
    else [].
Proof. exact (typed_after_probe host req src sel text v). Qed.

Lemma known_field_witness :
  source_of (sample_host no_affiliate_field) (payload_of form_request)
    = Ok "form" /\
  In (ESettled (OQuery sel_affiliateId) (Ok VNull))
     (trace (sample_host no_affiliate_field) form_request) /\
  In (ESettled (OQuery sel_notes) (Ok element_handle))
     (trace (sample_host no_affiliate_field) form_request) /\
  typed_into sel_affiliateId (trace (sample_host no_affiliate_field) form_request)
    = [] /\
  typed_into sel_notes (trace (sample_host no_affiliate_field) form_request)
    = typed_of (compose_notes (sample_host no_affiliate_field)
                  (payload_of form_request) "form").
Proof.
  assert (Hs : source_of (sample_host no_affiliate_field)
                 (payload_of form_request) = Ok "form") by reflexivity.
  assert (H1 : In (ESettled (OQuery sel_affiliateId) (Ok VNull))
                  (trace (sample_host no_affiliate_field) form_request))
    by find_in_trace.
  assert (H2 : In (ESettled (OQuery sel_notes) (Ok element_handle))
                  (trace (sample_host no_affiliate_field) form_request))
    by find_in_trace.
  split; [exact Hs|]. split; [exact H1|]. split; [exact H2|]. split.
  - apply (known_field_is_typed_iff_present
             (sample_host no_affiliate_field) form_request "form"
             sel_affiliateId
             (Ok (AFFILIATE_ID (sample_host no_affiliate_field))) VNull Hs);
      [left; reflexivity | exact H1].
  - apply (known_field_is_typed_iff_present
             (sample_host no_affiliate_field) form_request "form"
             sel_notes
             (compose_notes (sample_host no_affiliate_field)
                (payload_of form_request) "form")
             element_handle Hs);
      [do 4 right; left; reflexivity | exact H2].
Defined.

(** X13. On a page that has the affiliate field, the id typed into it
    is the value of the environment variable [AFFILIATE_ID], and [242]
    when the variable is unset or empty. *)
Theorem affiliate_id_defaults_to_242
    (host : Host) (req : Request) (v : value) :
  truthy (lookup "AFFILIATE_ID" (process_env host)) = false ->
  In (ESettled (OQuery sel_affiliateId) (Ok v)) (trace host req) ->
  truthy v = true ->
  typed_into sel_affiliateId (trace host req) = ["242"].
Proof.
  intros Henv Hev Hv.
  destruct (happened_resolved host req _ Hev) as (src & Hsrc).
  rewrite (typed_after_probe host req src sel_affiliateId
             (Ok (AFFILIATE_ID host)) v Hsrc (or_introl eq_refl) Hev), Hv.
  unfold typed_of, AFFILIATE_ID, env_or, js_or. rewrite Henv. reflexivity.
Qed.

Lemma affiliate_id_default_witness :
  truthy (lookup "AFFILIATE_ID" (process_env (sample_host all_well))) = false /\
  In (ESettled (OQuery sel_affiliateId) (Ok element_handle))
     (trace (sample_host all_well) form_request) /\
  typed_into sel_affiliateId (trace (sample_host all_well) form_request) = ["242"].
Proof.
  assert (Hin : In (ESettled (OQuery sel_affiliateId) (Ok element_handle))
                   (trace (sample_host all_well) form_request))
    by find_in_trace.
  split; [reflexivity|]. split; [exact Hin|].
  apply (affiliate_id_defaults_to_242 (sample_host all_well) form_request
           element_handle);
    [reflexivity | exact Hin | reflexivity].
Defined.

(* ================================================================== *)
(** * A lead that cannot be converted to text *)
(* ================================================================== *)

(** A probe and its fill that ended with an exception. *)
Lemma fill_thrown s t host e l :
  yields (fill_if_present s t) host (Throw e) l ->
  flat_map (field_probe s) l = [] \/
  exists w, flat_map (field_probe s) l = [w] /\ truthy w = true /\
            (t = Throw e \/ exists text, t = Ok text).
Proof.
  intros H. unfold fill_if_present in H.
  run_inv; observe; rewrite ?String.eqb_refl; cbn;
    first [ left; reflexivity
          | right; eexists; split; [reflexivity|]; split; [assumption|];
            first [ left; reflexivity | right; eexists; reflexivity ] ].
Qed.

(** A probe and its fill that went through. *)
Lemma fill_done s t host a l :
  yields (fill_if_present s t) host (Ok a) l ->
  exists w, flat_map (field_probe s) l = [w] /\
            (truthy w = false \/ exists text, t = Ok text).
Proof.
  intros H. unfold fill_if_present in H.
  run_inv; observe; rewrite ?String.eqb_refl; cbn;
    eexists; (split; [reflexivity|]);
    first [ left; assumption | right; eexists; reflexivity ].
Qed.

(** When the lead field is found and its text cannot be computed, the
    fills end with the exception of the conversion. *)
Lemma lead_conversion_ends_fill host data src r lf sel key v e :
  (sel = sel_leadName /\ key = "name") \/
  (sel = sel_leadPhone /\ key = "phone") ->
  yields (fill_known_fields data src) host r lf ->
  In v (flat_map (field_probe sel) lf) -> truthy v = true ->
  lead_text host (prop key data) = Throw e ->
  r = Throw e.
Proof.
  intros Hsel H Hp Hv Hlead. unfold fill_known_fields in H.
  apply yields_with_host_inv in H.
  destruct Hsel as [[-> ->] | [-> ->]];
    run_inv; rewrite ?flat_map_app in Hp;
    match type of Hp with
    | context [field_probe ?sel] =>
        repeat match goal with
        | Hf : yields (fill_if_present ?s ?t) _ _ ?l0 |- _ =>
            let Hq := fresh "Hq" in
            destruct (fill_other s t sel _ _ _ eq_refl Hf) as [Hq _];
            rewrite Hq in Hp; clear Hf Hq
        | Hf : yields (fill_if_present ?s ?t) _ (Ok _) ?l0 |- _ =>
            let Hq := fresh "Hq" in let w := fresh "w" in
            let Hw := fresh "Hw" in let text := fresh "text" in
            destruct (fill_done s t _ _ _ Hf) as (w & Hq & [Hw | (text & Hw)]);
            rewrite Hq in Hp; clear Hf Hq
        | Hf : yields (fill_if_present ?s ?t) _ (Throw _) ?l0 |- _ =>
            let Hq := fresh "Hq" in let w := fresh "w" in
            let Hw := fresh "Hw" in let Ht := fresh "Ht" in
            let text := fresh "text" in
            destruct (fill_thrown s t _ _ _ Hf)
              as [Hq | (w & Hq & Hw & [Ht | (text & Ht)])];
            rewrite Hq in Hp; clear Hf Hq
        end
    end;
    cbn [app] in Hp;
    repeat destruct Hp as [Hp|Hp]; try contradiction; subst;
    congruence.
Qed.

(** X17. When the lead-name (lead-phone) field is on the page and the
    name (phone) of the record cannot be converted to text, [String]
    throws on line 115 (118) after the probe: nothing is typed into
    the field, the [catch] of line 157 appends the one entry of the
    outcome log, with the message of the exception and the payload, the
    form is not submitted and [browser.close()] is not called. *)
Theorem unprintable_lead_ends_attempt
    (host : Host) (req : Request) (selector key : string) (v : value)
    (e : JsError) :
  (selector = sel_leadName /\ key = "name") \/
  (selector = sel_leadPhone /\ key = "phone") ->
  In (ESettled (OQuery selector) (Ok v)) (trace host req) ->
  truthy v = true ->
  truthy (prop key (payload_of req)) = true ->
  ToString host (prop key (payload_of req)) = Throw e ->
  (exists ts,
     rocketour_entries (trace host req) =
     [error_entry ts (errText e) (payload_of req)]) /\
  typed_into selector (trace host req) = [] /\
  clicks (trace host req) = [] /\
  close_calls (trace host req) = [].
Proof.
  intros Hsel Hin Hv Hkey Hconv.
  destruct (happened_resolved host req _ Hin) as (src & Hsrc).
  assert (Hlead : lead_text host (prop key (payload_of req)) = Throw e)
    by (unfold lead_text; rewrite Hkey; exact Hconv).
  assert (Hs : (sel_submit =? selector) = false)
    by (destruct Hsel as [[-> _] | [-> _]]; reflexivity).
  assert (Htyped : typed_into selector (trace host req) = []).
  { rewrite (typed_after_probe host req src selector
               (lead_text host (prop key (payload_of req))) v Hsrc);
      [rewrite Hlead; destruct (truthy v); reflexivity | | exact Hin].
    destruct Hsel as [[-> ->] | [-> ->]]; unfold field_texts; simpl; auto. }
  assert (Hp : In v (flat_map (field_probe selector) (trace host req))).
  { apply (in_flat_map_one _ _ _ _ Hin). simpl. rewrite String.eqb_refl. reflexivity. }
  split; [|split; [exact Htyped|]]; clear Htyped Hin; revert Hp;
    destruct (trace_stages host req src Hsrc)
      as (head & lo & lf & rest & r & E & Hhead & Hcases);
    rewrite E; clear E; rewrite !flat_map_app;
    rewrite (flat_map_outside outside_browser (field_probe selector) head)
      by eauto with blind;
    (destruct Hcases
       as [(e' & Ho & -> & He) | [(a & e' & Ho & Hf & He) | (a & a' & Ho & Hf & Hl)]]);
    pose proof (yields_only _ _ _ _ _ open_before_submit Ho) as Hlo;
    rewrite (proj1 (away_sees_nothing selector lo
                      (yields_only _ _ _ _ _ (open_away selector) Ho)));
    try pose proof (yields_only _ _ _ _ _
                      (fill_before_submit (payload_of req) src) Hf) as Hlf;
    try rewrite (proj1 (away_sees_nothing selector rest
                          (yields_only _ _ _ _ _
                             (on_error_away selector _ e') He)));
    try rewrite (proj1 (away_sees_nothing selector rest
                          (yields_only _ _ _ _ _
                             (last_steps_away selector _ Hs) Hl)));
    cbn [app]; rewrite ?app_nil_r; intros Hp; try contradiction;
    pose proof (lead_conversion_ends_fill _ _ _ _ _ _ _ _ _
                  Hsel Hf Hp Hv Hlead) as Heq;
    try discriminate Heq; injection Heq as ->;
    unfold on_background_error in He; run_inv; observe;
    repeat split; try reflexivity; eexists; reflexivity.
Qed.

Lemma unprintable_lead_witness :
  In (ESettled (OQuery sel_leadName) (Ok element_handle))
     (trace (sample_host all_well) unprintable_name_request) /\
  ToString (sample_host all_well)
    (prop "name" (payload_of unprintable_name_request)) = Throw cannot_convert /\
  (exists ts,
     rocketour_entries (trace (sample_host all_well) unprintable_name_request) =
     [error_entry ts "Cannot convert object to primitive value"
        (payload_of unprintable_name_request)]) /\
  typed_into sel_leadName
    (trace (sample_host all_well) unprintable_name_request) = [] /\
  clicks (trace (sample_host all_well) unprintable_name_request) = [] /\
  close_calls (trace (sample_host all_well) unprintable_name_request) = [].
Proof.
  assert (Hin : In (ESettled (OQuery sel_leadName) (Ok element_handle))
                   (trace (sample_host all_well) unprintable_name_request))
    by find_in_trace.
  split; [exact Hin|]. split; [reflexivity|].
  apply (unprintable_lead_ends_attempt (sample_host all_well)
           unprintable_name_request sel_leadName "name" element_handle
           cannot_convert (or_introl (conj eq_refl eq_refl)) Hin);
    reflexivity.
Defined.

(* ================================================================== *)
(** * The shape of the notes *)
(* ================================================================== *)

Lemma string_app_assoc (a b c : string) :
  ((a ++ b) ++ c = a ++ (b ++ c))%string.
Proof. induction a as [|x a IH]; simpl; [reflexivity | rewrite IH; reflexivity]. Qed.

Lemma join_cons host sep x y l :
  join host sep (x :: y :: l) =
  let* sx := item_text host x in
  let* t := join host sep (y :: l) in
  Ok (sx ++ sep ++ t)%string.
Proof. reflexivity. Qed.

Lemma join_one host sep x :
  join host sep [x] = let* sx := item_text host x in Ok sx.
Proof. reflexivity. Qed.

(** Joining a list that ends with a text. *)
Lemma join_snoc host sep l m :
  join host sep (l ++ [VStr m]) =
  match l with
  | [] => Ok m
  | _ :: _ => let* t := join host sep l in Ok (t ++ sep ++ m)%string
  end.
Proof.
  induction l as [|x l IH]; [reflexivity|].
  destruct l as [|y l].
  - cbn [app]. rewrite join_cons, !join_one.
    destruct (item_text host x); reflexivity.
  - change ((x :: y :: l) ++ [VStr m]) with (x :: (y :: l) ++ [VStr m]).
    change ((y :: l) ++ [VStr m]) with (y :: l ++ [VStr m]) in *.
    rewrite join_cons, IH, (join_cons host sep x y l).
    destruct (item_text host x); [|reflexivity].
    destruct (join host sep (y :: l)); [|reflexivity].
    cbn [and_then]. rewrite !string_app_assoc. reflexivity.
Qed.

Lemma channel_marker_truthy src : truthy (VStr (channel_marker src)) = true.
Proof. unfold channel_marker. destruct (src =? "whatsapp"); reflexivity. Qed.

(** Step through the conversions of [compose_notes] in a hypothesis
    that says it gave a result. *)
Ltac went_through H :=
  repeat match type of H with
         | and_then ?a _ = Ok _ =>
             destruct a as [?|?]; cbn [and_then] in H; [|discriminate H]
         end.

(** X14. Notes that are composed are never empty: their last line is
    the channel marker, whatever the payload holds, and what comes
    before it is separated from it by a line break. *)
Theorem notes_end_with_channel_marker
    (host : Host) (data : value) (src notes : string) :
  compose_notes host data src = Ok notes ->
  notes = channel_marker src \/
  exists lines, notes = (lines ++ newline ++ channel_marker src)%string.
Proof.
  unfold compose_notes. cbv zeta. fold (channel_marker src). intros H.
  went_through H.
  match type of H with
  | context [filter truthy (?l ++ [VStr (channel_marker src)])] =>
      revert H; generalize l; intros parts H
  end.
  rewrite filter_app in H. cbn [filter] in H.
  rewrite channel_marker_truthy, join_snoc in H.
  destruct (filter truthy parts) as [|x l].
  - left. injection H as <-. reflexivity.
  - right. went_through H. injection H as <-. eexists. reflexivity.
Qed.

Lemma notes_end_witness :
  compose_notes (sample_host all_well) (payload_of form_request) "form"
    = Ok (PARTICIPANTS ++ "2" ++ newline ++ "Colosseum, Vatican" ++ newline
          ++ SENT_BY_FORM)%string /\
  exists lines,
    (PARTICIPANTS ++ "2" ++ newline ++ "Colosseum, Vatican" ++ newline
     ++ SENT_BY_FORM)%string
    = (lines ++ newline ++ channel_marker "form")%string.
Proof.
  assert (H : compose_notes (sample_host all_well) (payload_of form_request) "form"
              = Ok (PARTICIPANTS ++ "2" ++ newline ++ "Colosseum, Vatican"
                    ++ newline ++ SENT_BY_FORM)%string) by reflexivity.
  split; [exact H|].
  destruct (notes_end_with_channel_marker _ _ _ _ H) as [E | E];
    [vm_compute in E; discriminate E | exact E].
Defined.

(** X15. A tour list without text (an empty list, or one whose items
    join to the empty string) adds no line to the notes: they are the
    notes of the same payload without tours. *)
Theorem tour_list_without_text_adds_no_line
    (host : Host) (data data' : value) (items : list value) (src : string) :
  prop "npart" data = prop "npart" data' ->
  prop "participants" data = prop "participants" data' ->
  prop "tour_details" data = prop "tour_details" data' ->
  prop "tours" data = VArr items ->
  join host ", " items = Ok "" ->
  truthy (prop "tours" data') = false ->
  compose_notes host data src = compose_notes host data' src.
Proof.
  intros Hn Hp Hd Ht Hj Hf.
  unfold compose_notes. cbv zeta.
  rewrite Hn, Hp, Hd, Ht, Hf, Hj.
  do 2 same_step.
  cbn [truthy and_then].
  rewrite !filter_app. cbn [filter truthy String.eqb negb app].
  rewrite app_nil_r. reflexivity.
Qed.

Lemma tour_list_without_text_witness :
  compose_notes (sample_host all_well) empty_tour_list "form" =
  compose_notes (sample_host all_well) no_tour_list "form".
Proof.
  apply (tour_list_without_text_adds_no_line (sample_host all_well)
           empty_tour_list no_tour_list []);
    reflexivity.
Defined.
